(** * Personal-Assistant-LLM: the RAG orchestrator and the conversation store

    A shallow embedding of the backend's core:
    - [SessionManager]   (utils/sessionManager.js): the in-memory conversation
      store, a JS [Map] from conversation id to session record;
    - [OllamaService]    (services/ollamaService.js): the language-model HTTP
      client (embeddings and generation);
    - [PineconeService]  (services/pineconeService.js): the vector-index client
      with its retry wrapper;
    - [RagService]       (services/ragService.js): context retrieval, prompt
      assembly, generation and the confidence label.

    Conventions.
    - A JS [Date] is its epoch time in milliseconds, a [Z]; the ISO string of
      [toISOString] is a rendering of the same instant and is kept as that [Z].
    - A JS number that carries a similarity score is a rational [Q] (every
      finite double is one); an absent property is [None]. The number
      literals of the source are the doubles they denote, written as exact
      fractions.
    - [async] code is sequential here: every [await] is a bind of the effect
      monad [M], which threads the log of external requests and carries JS
      exceptions. *)

From Stdlib Require Import ZArith QArith Qabs Qround Qminmax String Ascii List Lia.
From stdpp Require Import base option list strings gmap fin_maps pretty sorting.

Local Open Scope string_scope.
Local Open Scope list_scope.
Local Open Scope Z_scope.

(** ** JavaScript helpers shared by the modules *)

(** ["\n"] *)
Definition nl : string := String "010"%char EmptyString.

(** [arr.slice(-n)]: the last [n] elements, all of them when there are fewer. *)
Definition slice_last {A} (n : nat) (arr : list A) : list A :=
  drop (length arr - n)%nat arr.

(** [arr.join(sep)] on an array of strings. *)
Definition join (sep : string) (arr : list string) : string :=
  String.concat sep arr.

(** [s || fallback] on strings: the empty string is falsy. *)
Definition str_or (s fallback : string) : string :=
  if decide (s = "") then fallback else s.

(** A chat message as stored by the session manager and as passed, as
    history, to the RAG service (which reads [role] and [content] only). *)
Record Message := mkMessage {
  role : string;
  content : string;
  timestamp : Z
}.

(** ** Effects: exceptions and the log of external requests *)

(** What a JS [throw] can carry: an [Error] object with its [message], a
    nullish value ([undefined], [null]) or another primitive. *)
Inductive Thrown :=
| ErrorObject (message : string)
| Nullish
| Primitive (text : string).

(** The second argument of the [console.error] calls, [error.message || error]. *)
Inductive Logged :=
| LogText (s : string)
| LogValue (v : Thrown).

(** An embedding vector. *)
Abbreviation Embedding := (list Q).

(** Requests that leave the process, and console output, in program order. *)
Inductive Event :=
| EmbeddingsPost (prompt : string)
| GeneratePost (prompt : string)
| IndexQuery (vector : option Embedding) (topK : nat)
| ConsoleError (label : string) (detail : Logged).

Abbreviation Trace := (list Event).

(** The prompts of the generation requests in a log, oldest first. *)
Definition generateRequests (t : Trace) : list string :=
  omap (fun ev => match ev with GeneratePost p => Some p | _ => None end) t.

Inductive Outcome (A : Type) :=
| Returned (a : A)
| Threw (e : Thrown).
Arguments Returned {A} a.
Arguments Threw {A} e.

(** A computation reads the log so far, extends it, and returns or throws. *)
Definition M (A : Type) : Type := Trace -> Outcome A * Trace.

Definition ret {A} (a : A) : M A := fun t => (Returned a, t).

Definition throw {A} (e : Thrown) : M A := fun t => (Threw e, t).

Definition bind {A B} (c : M A) (k : A -> M B) : M B :=
  fun t =>
    match c t with
    | (Returned a, t') => k a t'
    | (Threw e, t') => (Threw e, t')
    end.

(** [try { c } catch (error) { handler }] *)
Definition try_catch {A} (c : M A) (handler : Thrown -> M A) : M A :=
  fun t =>
    match c t with
    | (Returned a, t') => (Returned a, t')
    | (Threw e, t') => handler e t'
    end.

(** An awaited call to an external collaborator: it is logged, and its
    outcome may depend on everything that happened before. *)
Definition call {A} (ev : Event) (behaviour : Trace -> Outcome A) : M A :=
  fun t => (behaviour t, t ++ [ev]).

Definition console_error (label : string) (detail : Logged) : M unit :=
  fun t => (Returned tt, t ++ [ConsoleError label detail]).

Notation "'let*' x ':=' c 'in' k" := (bind c (fun x => k))
  (at level 10, x name, c at level 100, k at level 200).
Notation "c ';;' k" := (bind c (fun _ => k))
  (at level 100, k at level 200, right associativity).

(** [error.message || error]: reading [message] of a nullish value raises a
    [TypeError]; an empty or absent message falls through to the value. *)
Definition message_or_self (error : Thrown) : M Logged :=
  match error with
  | ErrorObject m => ret (if decide (m = "") then LogValue error else LogText m)
  | Nullish => throw (ErrorObject "Cannot read properties of undefined (reading 'message')")
  | Primitive _ => ret (LogValue error)
  end.

(** Two properties of computations used in the proofs: no nullish value
    escapes, and no generation request is posted. *)
Definition neverThrowsNullish {A} (c : M A) : Prop :=
  forall t, (c t).1 <> Threw Nullish.

Definition postsNoGenerate {A} (c : M A) : Prop :=
  forall t, generateRequests (c t).2 = generateRequests t.

(** [String(v)] of a logged value, as a template literal renders it. *)
Definition render_logged (d : Logged) : string :=
  match d with
  | LogText s => s
  | LogValue (ErrorObject _) => "Error"
  | LogValue Nullish => "undefined"
  | LogValue (Primitive s) => s
  end.

(** ** The external collaborators *)

(** [response.data] of [POST /api/embeddings]. *)
Record EmbeddingsData := mkEmbeddingsData {
  embedding : option Embedding
}.

(** [response.data] of [POST /api/generate]. *)
Record GenerateData := mkGenerateData {
  data_response : option string;
  data_output : option string;
  data_message : option string
}.

(** Metadata stored with a vector. *)
Record MatchMetadata := mkMatchMetadata {
  text : option string;
  category : option string;
  source : option string
}.

(** A match as the Pinecone client reports it. *)
Record RawMatch := mkRawMatch {
  raw_id : string;
  raw_score : option Q;
  raw_metadata : option MatchMetadata
}.

(** The result of [index.query]. *)
Record QueryResponse := mkQueryResponse {
  matches : option (list RawMatch)
}.

(** A match as [searchSimilar] returns it: [{ id, score, metadata }]. *)
Record Match := mkMatch {
  id : string;
  score : option Q;
  metadata : MatchMetadata
}.

(** The process environment and the behaviour of the remote services. A
    behaviour sees the log so far, so a service may answer the same request
    differently on a retry. *)
Record Env := mkEnv {
  PINECONE_INDEX_NAME : option string;
  pinecone_index : string -> Outcome unit;
  index_query : Trace -> option Embedding -> nat -> Outcome QueryResponse;
  http_post_embeddings : Trace -> string -> Outcome (option EmbeddingsData);
  http_post_generate : Trace -> string -> Outcome (option GenerateData)
}.

(** [m.role === 'assistant' ? 'Assistant' : 'User'] followed by the content;
    the same template literal occurs in ollamaService.js and ragService.js. *)
Definition historyLine (m : Message) : string :=
  (if decide (role m = "assistant") then "Assistant" else "User") +:+ ": " +:+ content m.

(** ** utils/sessionManager.js *)
Module SessionManager.

Record Metadata := mkMetadata {
  userId : option string;
  startTime : Z
}.

Record Session := mkSession {
  messages : list Message;
  lastActivity : option Z;
  metadata : Metadata
}.

(** [this.sessions], a [Map] keyed by conversation id. *)
Abbreviation Sessions := (gmap string Session).

(** [createSession(userId)]; [id] is the value of [uuidv4()] and [now] the
    value of [new Date()]. Returns the store and the id. *)
Definition createSession (sessions : Sessions) (id : string) (now : Z)
    (userId : option string) : Sessions * string :=
  (<[id := {| messages := [];
              lastActivity := Some now;
              metadata := {| userId := userId; startTime := now |} |}]> sessions,
   id).

(** [addMessage(conversationId, role, content)]. *)
Definition addMessage (sessions : Sessions) (conversationId : string)
    (role content : string) (now : Z) : Sessions :=
  if decide (conversationId = "") then sessions
  else
    match sessions !! conversationId with
    | None => sessions
    | Some session =>
        <[conversationId :=
            {| messages := messages session ++
                             [ {| role := role; content := content; timestamp := now |} ];
               lastActivity := Some now;
               metadata := metadata session |}]> sessions
    end.

(** What [getConversation] returns when the session exists. *)
Record Conversation := mkConversation {
  conv_messages : list Message;
  conv_metadata : Metadata
}.

(** [getConversation(conversationId)]; [None] is the JS [null]. *)
Definition getConversation (sessions : Sessions) (conversationId : string)
    : option Conversation :=
  match sessions !! conversationId with
  | None => None
  | Some session =>
      let messages := slice_last 10 (messages session) in
      Some {| conv_messages := messages; conv_metadata := metadata session |}
  end.

(** [deleteSession(conversationId)]: [Map.prototype.delete] tells whether the
    key was present. *)
Definition deleteSession (sessions : Sessions) (conversationId : string)
    : Sessions * bool :=
  (delete conversationId sessions, bool_decide (is_Some (sessions !! conversationId))).

(** [clearAll()]. *)
Definition clearAll (sessions : Sessions) : Sessions * nat :=
  let count := size sessions in
  (∅, count).

Definition ONE_HOUR : Z := 60 * 60 * 1000.

(** The callback of [this.sessions.forEach] in [cleanupInactive]; the state is
    the map being mutated and the counter [removed]. *)
Definition cleanupStep (now : Z) (id : string) (session : Session)
    (st : Sessions * nat) : Sessions * nat :=
  match lastActivity session with
  | None => st
  | Some last =>
      let age := now - last in
      if decide (age > ONE_HOUR) then (delete id st.1, (st.2 + 1)%nat) else st
  end.

(** The two tests of the callback together: the entry is deleted. *)
Definition expired (now : Z) (session : Session) : bool :=
  match lastActivity session with
  | Some last => bool_decide (now - last > ONE_HOUR)
  | None => false
  end.

(** [cleanupInactive()], with [now] the value of [Date.now()]. Deleting the
    entry being visited does not disturb [Map.prototype.forEach]: every entry
    present at the start is visited once. Returns the store and [removed]. *)
Definition cleanupInactive (sessions : Sessions) (now : Z) : Sessions * nat :=
  map_fold (cleanupStep now) (sessions, 0%nat) sessions.

(** A run of [addMessage] calls on one conversation, in order. *)
Definition addMessages (sessions : Sessions) (conversationId : string)
    (entries : list (string * string * Z)) : Sessions :=
  fold_left (fun s '(r, c, now) => addMessage s conversationId r c now) entries sessions.

(** The message record that [addMessage] pushes. *)
Definition pushed (e : string * string * Z) : Message :=
  let '(r, c, now) := e in {| role := r; content := c; timestamp := now |}.

End SessionManager.

(** ** services/ollamaService.js *)
Module OllamaService.

(** [a || rest] where [a] is an optional string property. *)
Definition field_or (a : option string) (rest : string) : string :=
  match a with
  | Some s => str_or s rest
  | None => rest
  end.

(** The text that [generateResponse] posts as [prompt]. *)
Definition fullPrompt (prompt : string) (conversationHistory : list Message) : string :=
  let historyText := join nl (map historyLine conversationHistory) in
  prompt +:+ nl +:+ nl +:+ "Conversation so far:" +:+ nl +:+ historyText
         +:+ nl +:+ nl +:+ "Assistant:".

(** [data.response || data.output || data.message || '']. *)
Definition textOf (data : GenerateData) : string :=
  field_or (data_response data)
    (field_or (data_output data)
       (field_or (data_message data) "")).

(** The generation request failed: it threw, or came back without data or
    without text. *)
Definition generationFailed (o : Outcome (option GenerateData)) : Prop :=
  match o with
  | Threw _ => True
  | Returned None => True
  | Returned (Some data) => textOf data = ""
  end.

(** [generateResponse(prompt, conversationHistory)]. *)
Definition generateResponse (env : Env) (prompt : string)
    (conversationHistory : list Message) : M string :=
  let fullPrompt := fullPrompt prompt conversationHistory in
  try_catch
    (let* data := call (GeneratePost fullPrompt)
                       (fun t => http_post_generate env t fullPrompt) in
     match data with
     | None => throw (ErrorObject "Empty response from Ollama.")
     | Some data =>
         let text := textOf data in
         if decide (text = "")
         then throw (ErrorObject "No text content returned from Ollama.")
         else ret text
     end)
    (fun error =>
       let* detail := message_or_self error in
       console_error "Ollama generateResponse error:" detail ;;
       throw (ErrorObject "Failed to generate response from Ollama.")).

(** The [for (const t of texts)] loop of [generateEmbedding]. *)
Fixpoint embedLoop (env : Env) (texts : list string) (embeddings : list Embedding)
    : M (list Embedding) :=
  match texts with
  | [] => ret embeddings
  | t :: rest =>
      let* data := call (EmbeddingsPost t) (fun tr => http_post_embeddings env tr t) in
      match data with
      | None => throw (ErrorObject "Invalid embedding response from Ollama.")
      | Some data =>
          match embedding data with
          | None => throw (ErrorObject "Invalid embedding response from Ollama.")
          | Some e => embedLoop env rest (embeddings ++ [e])
          end
      end
  end.

(** [generateEmbedding(text)] on an array of texts. *)
Definition generateEmbedding (env : Env) (texts : list string) : M (list Embedding) :=
  try_catch
    (embedLoop env texts [])
    (fun error =>
       let* detail := message_or_self error in
       console_error "Ollama generateEmbedding error:" detail ;;
       throw (ErrorObject "Failed to generate embeddings from Ollama.")).

(** The embedding request failed: it threw, or came back without a vector. *)
Definition embeddingFailed (o : Outcome (option EmbeddingsData)) : Prop :=
  match o with
  | Threw _ => True
  | Returned None => True
  | Returned (Some data) => embedding data = None
  end.

End OllamaService.

(** ** services/pineconeService.js *)
Module PineconeService.

(** [getIndex()]; an unset or empty index name is falsy. *)
Definition getIndex (env : Env) : M unit :=
  match PINECONE_INDEX_NAME env with
  | None => throw (ErrorObject "PINECONE_INDEX_NAME is not configured.")
  | Some name =>
      if decide (name = "")
      then throw (ErrorObject "PINECONE_INDEX_NAME is not configured.")
      else
        try_catch
          (fun t => (pinecone_index env name, t))
          (fun error =>
             let* detail := message_or_self error in
             throw (ErrorObject ("Failed to initialize Pinecone index: "
                                   +:+ render_logged detail)))
  end.

(** The [for] loop of [withRetry], from iteration [i = attempts - remaining]
    on; [lastError] is [None] while it is still [undefined]. *)
Fixpoint retryLoop {A} (fn : M A) (attempts remaining : nat) (lastError : option Thrown)
    : M A :=
  match remaining with
  | O => throw (default Nullish lastError)
  | S remaining' =>
      try_catch fn
        (fun error =>
           let i := (attempts - remaining)%nat in
           let* detail := message_or_self error in
           console_error ("Pinecone operation failed (attempt " +:+ pretty (i + 1)%nat
                            +:+ "/" +:+ pretty attempts +:+ "):") detail ;;
           retryLoop fn attempts remaining' (Some error))
  end.

(** [withRetry(fn, attempts)]. *)
Definition withRetry {A} (fn : M A) (attempts : nat) : M A :=
  retryLoop fn attempts attempts None.

(** [x.score || 0]: absent, zero and NaN are falsy; the result is a number. *)
Definition score_or_zero (s : option Q) : Q :=
  match s with
  | Some q => if Qeq_bool q 0 then 0%Q else q
  | None => 0%Q
  end.

(** [matches.sort((a, b) => (b.score || 0) - (a.score || 0))]: descending by
    score; [Array.prototype.sort] is stable, so is the insertion. *)
Fixpoint insertByScore (m : Match) (sorted : list Match) : list Match :=
  match sorted with
  | [] => [m]
  | x :: rest =>
      if Qle_bool (score_or_zero (score x)) (score_or_zero (score m))
      then m :: x :: rest
      else x :: insertByScore m rest
  end.

Definition sortByScore (l : list Match) : list Match :=
  foldr insertByScore [] l.

Definition emptyMetadata : MatchMetadata :=
  {| text := None; category := None; source := None |}.

(** The callback of [(result.matches || []).map]. *)
Definition toMatch (m : RawMatch) : Match :=
  {| id := raw_id m;
     score := raw_score m;
     metadata := default emptyMetadata (raw_metadata m) |}.

(** [searchSimilar(queryEmbedding, topK)]. *)
Definition searchSimilar (env : Env) (queryEmbedding : option Embedding) (topK : nat)
    : M (list Match) :=
  withRetry
    (getIndex env ;;
     let* result := call (IndexQuery queryEmbedding topK)
                         (fun t => index_query env t queryEmbedding topK) in
     let matches := map toMatch (default [] (matches result)) in
     ret (sortByScore matches))
    3.

End PineconeService.

(** ** services/ragService.js *)
Module RagService.

Import OllamaService PineconeService.

(** [n] copies of ["0"]. *)
Fixpoint zeros (n : nat) : string :=
  match n with
  | O => ""
  | S n' => "0" +:+ zeros n'
  end.

(** The double nearest to an integer [y] of at least 2^53, ties to the even
    significand, as an integer: what the Number value for [y] is. *)
Definition nearestDouble (y : Z) : Z :=
  let shift := Z.log2 y - 52 in
  let q := Z.shiftr y shift in
  let r := y - Z.shiftl q shift in
  let half := Z.shiftl 1 (shift - 1) in
  let m :=
    if r <? half then q
    else if half <? r then q + 1
    else if Z.even q then q else q + 1 in
  Z.shiftl m shift.

(** A decimal with [k] significant digits whose Number value is [x], the
    one closest to [x] (the even one on a tie); [d] is the number of digits
    of [x]. *)
Definition shortestAt (x : Z) (d k : nat) : option Z :=
  let p := 10 ^ Z.of_nat (d - k) in
  let lo := x / p in
  let vlo := lo * p in
  let vhi := (lo + 1) * p in
  match nearestDouble vlo =? x, nearestDouble vhi =? x with
  | true, true =>
      Some (if x - vlo <? vhi - x then vlo
            else if vhi - x <? x - vlo then vhi
            else if Z.even lo then vlo else vhi)
  | true, false => Some vlo
  | false, true => Some vhi
  | false, false => None
  end.

(** The least number of significant digits, from [k] on; 17 always suffice
    for a double. *)
Fixpoint shortestFrom (x : Z) (d k fuel : nat) : Z :=
  match fuel with
  | O => x
  | S fuel' =>
      match shortestAt x d k with
      | Some v => v
      | None => shortestFrom x d (S k) fuel'
      end
  end.

Fixpoint stripZeros (fuel : nat) (v : Z) : Z :=
  match fuel with
  | O => v
  | S fuel' => if (0 <? v) && (v mod 10 =? 0) then stripZeros fuel' (v / 10) else v
  end.

(** [String(x)] (ECMA-262, Number::toString) for a double [x] of at least
    10^21, an integer: the shortest decimal that reads back as [x], in
    exponent notation. *)
Definition numberToString (x : Z) : string :=
  let d := String.length (pretty x) in
  let v := shortestFrom x d 1 17 in
  let n := String.length (pretty v) in
  let e := "e+" +:+ pretty (n - 1)%nat in
  match pretty (stripZeros n v) with
  | String c "" => String c "" +:+ e
  | String c rest => String c "" +:+ "." +:+ rest +:+ e
  | "" => e
  end.

(** [x.toFixed(3)] (ECMA-262, Number.prototype.toFixed) for a finite [x].
    From 10^21 on the result is [String(x)]. Below, it is in fixed notation:
    the integer [n] nearest to 1000 * |x|, the larger one on a tie, printed
    with at least four digits and a point before the last three. *)
Definition toFixed3 (x : Q) : string :=
  let s := if Qle_bool 0 x then "" else "-" in
  if Qle_bool (inject_Z (10 ^ 21)) (Qabs x)
  then s +:+ numberToString (Qfloor (Qabs x))
  else
    let n := Qfloor (Qabs x * 1000 + (1 # 2)) in
    let m := pretty (Z.to_N n) in
    let k := String.length m in
    let m := if (k <=? 3)%nat then zeros (3 + 1 - k) +:+ m else m in
    let k := String.length m in
    s +:+ substring 0 (k - 3) m +:+ "." +:+ substring (k - 3) 3 m.

(** The callback of [matches.map] in [getRelevantContext]. *)
Definition contextPart (idx : nat) (m : Match) : string :=
  let text := field_or (text (metadata m)) "" in
  "Source " +:+ pretty (idx + 1)%nat +:+ " (score: "
    +:+ match score m with Some sc => toFixed3 sc | None => "n/a" end
    +:+ "):" +:+ nl +:+ text.

(** [contextParts.join('\n\n')]. *)
Definition renderContext (matches : list Match) : string :=
  let contextParts := imap contextPart matches in
  join (nl +:+ nl) contextParts.

Record ContextResult := mkContextResult {
  contextText : string;
  documents : list Match
}.

(** [getRelevantContext(userQuery, topK)]. *)
Definition getRelevantContext (env : Env) (userQuery : string) (topK : nat)
    : M ContextResult :=
  let* embeddings := generateEmbedding env [userQuery] in
  let queryEmbedding := head embeddings in
  let* matches := searchSimilar env queryEmbedding topK in
  ret {| contextText := renderContext matches; documents := matches |}.

Inductive Confidence := high | medium | low.

Record RAGResult := mkRAGResult {
  response : string;
  sources : list Match;
  confidence : Confidence
}.

Definition systemPrompt : string :=
  "You are an enterprise AI assistant. Use the following context to answer questions accurately. "
  +:+ "If the context doesn't contain the answer, say that the information is not available in the knowledge base "
  +:+ "and avoid making up facts.".

(** [(conversationHistory || []).slice(-5)]. *)
Definition historyTail (conversationHistory : list Message) : list Message :=
  slice_last 5 conversationHistory.

(** The fourth element of [ragPromptParts]. *)
Definition contextSection (contextText : string) : string :=
  str_or contextText "[No context available]".

(** The seventh element of [ragPromptParts]. *)
Definition historySection (historyTail : list Message) : string :=
  str_or (join nl (map historyLine historyTail)) "[No previous conversation]".

(** The last element of [ragPromptParts]. *)
Definition closingInstruction : string :=
  "Answer clearly and concisely. If you are unsure, say so explicitly.".

Definition ragPromptParts (contextText : string) (historyTail : list Message)
    (userQuery : string) : list string :=
  [ "System: " +:+ systemPrompt;
    "";
    "Context documents:";
    contextSection contextText;
    "";
    "Recent conversation:";
    historySection historyTail;
    "";
    "User question: " +:+ userQuery;
    "";
    closingInstruction ].

Definition ragPrompt (contextText : string) (historyTail : list Message)
    (userQuery : string) : string :=
  join nl (ragPromptParts contextText historyTail userQuery).

(** [scores.length ? Math.max(...scores) : 0]. *)
Definition maxScoreOf (scores : list Q) : Q :=
  match scores with
  | [] => 0%Q
  | sc :: rest => fold_left Qmax rest sc
  end.

(** The literal [0.7]: the double 0x3FE6666666666666, just below 7/10. *)
Definition literal_0_7 : Q := 3152519739159347 # 4503599627370496.

(** The literal [0.4]: the double 0x3FD999999999999A, just above 4/10. *)
Definition literal_0_4 : Q := 3602879701896397 # 9007199254740992.

(** Lines 75 to 83: the confidence label of the retrieved documents. *)
Definition estimateConfidence (documents : list Match) : Confidence :=
  let scores := map (fun d => score_or_zero (score d)) documents in
  let maxScore := maxScoreOf scores in
  if Qle_bool literal_0_7 maxScore then high
  else if Qle_bool literal_0_4 maxScore then medium
  else low.

(** The value returned from the outer [catch]. *)
Definition fallbackResult : RAGResult :=
  {| response :=
       "I encountered an error while trying to answer that question using the knowledge base. "
       +:+ "You may try again in a moment, or contact an administrator if the problem persists.";
     sources := [];
     confidence := low |}.

(** The initial value of [contextResult]. *)
Definition emptyContext : ContextResult :=
  {| contextText := ""; documents := [] |}.

(** The inner [try]/[catch]: [contextResult] keeps its initial value when
    [getRelevantContext] throws. *)
Definition retrieveContext (env : Env) (userQuery : string) : M ContextResult :=
  try_catch
    (getRelevantContext env userQuery 3)
    (fun contextError =>
       let* detail := message_or_self contextError in
       console_error "Failed to retrieve context from Pinecone:" detail ;;
       ret emptyContext).

(** [generateRAGResponse(userQuery, conversationHistory)]. *)
Definition generateRAGResponse (env : Env) (userQuery : string)
    (conversationHistory : list Message) : M RAGResult :=
  try_catch
    (let* contextResult := retrieveContext env userQuery in
     let contextText := contextText contextResult in
     let documents := documents contextResult in
     let historyTail := historyTail conversationHistory in
     let ragPrompt := ragPrompt contextText historyTail userQuery in
     let* responseText := generateResponse env ragPrompt historyTail in
     let confidence := estimateConfidence documents in
     ret {| response := responseText; sources := documents; confidence := confidence |})
    (fun error =>
       let* detail := message_or_self error in
       console_error "RAG generation error:" detail ;;
       ret fallbackResult).

End RagService.

(** ** The specification's words, for comparison with the code *)
Module Spec.

(** The composer's output: the sections in the order the specification
    lists them, one per line. *)
Definition compose (systemInstructions contextSection historySection userQuestion
                    closingInstruction : string) : string :=
  systemInstructions +:+ nl
  +:+ nl
  +:+ "Context documents:" +:+ nl
  +:+ contextSection +:+ nl
  +:+ nl
  +:+ "Recent conversation:" +:+ nl
  +:+ historySection +:+ nl
  +:+ nl
  +:+ userQuestion +:+ nl
  +:+ nl
  +:+ closingInstruction.

(** The score of a retrieved document; one that carries no score counts
    as 0. *)
Definition scoreOf (d : Match) : Q :=
  match score d with
  | Some q => q
  | None => 0%Q
  end.




(** [m] is the maximum score across [documents], or 0 if there are none. *)
Definition isMaxScore (documents : list Match) (m : Q) : Prop :=
  match documents with
  | [] => (m == 0)%Q
  | _ => (forall d, In d documents -> (scoreOf d <= m)%Q)
         /\ exists d, In d documents /\ (scoreOf d == m)%Q
  end.

End Spec.

(** ** Concrete inputs used by the examples below *)
Module Examples.

(** Every remote service refuses the connection. *)
Definition refused {A} : Outcome A := Threw (ErrorObject "connect ECONNREFUSED").

Definition envDown : Env :=
  {| PINECONE_INDEX_NAME := Some "kb";
     pinecone_index := fun _ => Returned tt;
     index_query := fun _ _ _ => refused;
     http_post_embeddings := fun _ _ => refused;
     http_post_generate := fun _ _ => refused |}.

(** The model answers, the embedding service is down. *)
Definition envRetrievalDown : Env :=
  {| PINECONE_INDEX_NAME := Some "kb";
     pinecone_index := fun _ => Returned tt;
     index_query := fun _ _ _ => refused;
     http_post_embeddings := fun _ _ => refused;
     http_post_generate := fun _ _ =>
       Returned (Some {| data_response := Some "I do not know.";
                         data_output := None; data_message := None |}) |}.

(** The index returns one match that has a score but no metadata. *)
Definition bareMatch : RawMatch :=
  {| raw_id := "doc-1"; raw_score := Some (3 # 10); raw_metadata := None |}.

Definition envBareMatch : Env :=
  {| PINECONE_INDEX_NAME := Some "kb";
     pinecone_index := fun _ => Returned tt;
     index_query := fun _ _ _ => Returned {| matches := Some [bareMatch] |};
     http_post_embeddings := fun _ _ => Returned (Some {| embedding := Some [1 # 2] |});
     http_post_generate := fun _ _ =>
       Returned (Some {| data_response := Some "I do not know.";
                         data_output := None; data_message := None |}) |}.

(** A document with the given score. *)
Definition scored (q : Q) : Match :=
  {| id := "doc"; score := Some q; metadata := PineconeService.emptyMetadata |}.

(** The doubles denoted by [0.71], [0.55] and [0.1]. *)
Definition double_0_71 : Q := 799388933858263 # 1125899906842624.
Definition double_0_55 : Q := 2476979795053773 # 4503599627370496.
Definition double_0_1 : Q := 3602879701896397 # 36028797018963968.


Import SessionManager.

(** A fresh conversation created at time 0. *)
Definition freshStore : gmap string Session :=
  (createSession ∅ "c1" 0 None).1.

Definition freshSession : Session :=
  {| messages := []; lastActivity := Some 0;
     metadata := {| userId := None; startTime := 0 |} |}.

(** Eleven messages, alternating user and assistant, at times 1 to 11. *)
Definition elevenEntries : list (string * string * Z) :=
  map (fun n => (if Nat.even n then "assistant" else "user", pretty n, Z.of_nat n))
      (seq 1 11).

(** A store with one conversation last active at [last], or without a
    [lastActivity]. *)
Definition sessionAt (last : option Z) : Session :=
  {| messages := []; lastActivity := last;
     metadata := {| userId := None; startTime := 0 |} |}.

Definition storeAt (last : option Z) : gmap string Session :=
  {[ "c1" := sessionAt last ]}.

End Examples.

(** ** routes/chat.js *)
Module ChatRoute.

Import RagService.

(** What [uuidv4()] and the successive [new Date()] calls return while one
    [POST /api/chat] request is handled. *)
Record Runtime := mkRuntime {
  uuid : string;
  createdAt : Z;
  userMessageAt : Z;
  assistantMessageAt : Z;
  repliedAt : Z
}.

(** An element of [sources] in the reply: [{ text, score }]. *)
Record Source := mkSource {
  source_text : string;
  source_score : option Q
}.

(** The body of the 200 reply. *)
Record ChatReply := mkChatReply {
  reply_conversationId : string;
  reply_response : string;
  reply_sources : list Source;
  reply_confidence : Confidence;
  reply_timestamp : Z
}.

Inductive Response :=
| Replied (body : ChatReply)
| NotFound404
| Failed500.

(** The callback of [(ragResult.sources || []).map]. *)
Definition toSource (s : Match) : Source :=
  {| source_text := OllamaService.field_or (text (metadata s)) "";
     source_score := score s |}.

(** The handler of [POST /api/chat] from line 283 on, where it arrives
    when the validation of its first two lines found no error ([chatHandler]
    below is the whole handler). [message] and [conversationId] are the
    fields of the sanitised body. The handler is suspended once, at
    [await generateRAGResponse(...)]; [during] is what the other requests and
    the expiry sweep do to the store in the meantime. Returns the reply, the
    store and the log. *)
Definition postChat (env : Env) (rt : Runtime)
    (during : gmap string SessionManager.Session -> gmap string SessionManager.Session)
    (sessions : gmap string SessionManager.Session)
    (message : string) (conversationId : option string) (t : Trace)
    : Response * gmap string SessionManager.Session * Trace :=
  let '(sessions, conversationId) :=
    match conversationId with
    | Some given =>
        if decide (given = "")
        then SessionManager.createSession sessions (uuid rt) (createdAt rt) None
        else (sessions, given)
    | None => SessionManager.createSession sessions (uuid rt) (createdAt rt) None
    end in
  match SessionManager.getConversation sessions conversationId with
  | None => (NotFound404, sessions, t)
  | Some conversation =>
      let sessions :=
        SessionManager.addMessage sessions conversationId "user" message
          (userMessageAt rt) in
      let historyForRag := SessionManager.conv_messages conversation in
      match generateRAGResponse env message historyForRag t with
      | (Returned ragResult, t') =>
          let sessions :=
            SessionManager.addMessage (during sessions) conversationId "assistant"
              (response ragResult) (assistantMessageAt rt) in
          (Replied {| reply_conversationId := conversationId;
                      reply_response := response ragResult;
                      reply_sources := map toSource (sources ragResult);
                      reply_confidence := confidence ragResult;
                      reply_timestamp := repliedAt rt |},
           sessions, t')
      | (Threw error, t') =>
          (Failed500, during sessions,
           t' ++ [ConsoleError "Chat route error:" (LogValue error)])
      end
  end.

(** The two library functions the validation chain relies on, whose code is
    outside the repository: the [trim] sanitizer of express-validator and
    [validate] of the uuid package. *)
Record Validators := mkValidators {
  trim : string -> string;
  validateUuid : string -> bool
}.

(** The JSON body of the request: each field is absent or a string. *)
Record Body := mkBody {
  body_message : option string;
  body_conversationId : option string
}.

(** Lines 273 to 278: [message] must be a string that is not empty once
    trimmed, and the trimmed string replaces it in [req.body];
    [conversationId] is checked with [validateUuid] unless it is undefined.
    [None] when [validationResult] holds an error. *)
Definition validated (v : Validators) (body : Body) : option (string * option string) :=
  match body_message body with
  | None => None
  | Some message =>
      if decide (trim v message = "") then None
      else
        match body_conversationId body with
        | None => Some (trim v message, None)
        | Some given =>
            if validateUuid v given then Some (trim v message, Some given) else None
        end
  end.

Inductive HandlerResponse :=
| BadRequest400
| Handled (response : Response).

(** The whole handler of [POST /api/chat]: [handleValidationErrors] answers
    400 and the handler returns; otherwise it goes on as [postChat] with the
    fields of the sanitised body. *)
Definition chatHandler (v : Validators) (env : Env) (rt : Runtime)
    (during : gmap string SessionManager.Session -> gmap string SessionManager.Session)
    (sessions : gmap string SessionManager.Session) (body : Body) (t : Trace)
    : HandlerResponse * gmap string SessionManager.Session * Trace :=
  match validated v body with
  | None => (BadRequest400, sessions, t)
  | Some (message, conversationId) =>
      let '(response, sessions', t') :=
        postChat env rt during sessions message conversationId t in
      (Handled response, sessions', t')
  end.

End ChatRoute.

(** ** routes/knowledge.js *)
Module KnowledgeRoute.

Import OllamaService PineconeService.

(** [n || d] on an optional query number: absent and 0 are falsy. *)
Definition num_or (n : option nat) (d : nat) : nat :=
  match n with
  | Some (S k) => S k
  | _ => d
  end.

(** [arr.slice(start, end)] for indices that are not negative. *)
Definition slice_range {A} (start end_ : nat) (arr : list A) : list A :=
  take (end_ - start) (drop start arr).

(** The body of the reply of [GET /api/knowledge/list]. *)
Record Listing (A : Type) := mkListing {
  page : nat;
  limit : nat;
  total : nat;
  items : list A
}.
Arguments mkListing {A}.
Arguments page {A}.
Arguments limit {A}.
Arguments total {A}.
Arguments items {A}.

(** The handler of [GET /api/knowledge/list] once [listAllDocuments()] has
    returned [docs]. *)
Definition listPage {A} (docs : list A) (queryPage queryLimit : option nat) : Listing A :=
  let page := num_or queryPage 1 in
  let limit := num_or queryLimit 50 in
  let total := length docs in
  let start := ((page - 1) * limit)%nat in
  let end_ := (start + limit)%nat in
  let items := slice_range start end_ docs in
  {| page := page; limit := limit; total := total; items := items |}.

(** An element of [results] in the reply of [GET /api/knowledge/search]. *)
Record SearchResult := mkSearchResult {
  result_id : string;
  result_text : string;
  result_category : string;
  result_source : string;
  result_score : option Q
}.

Inductive SearchResponse :=
| Results (results : list SearchResult)
| SearchFailed500.

(** The callback of [matches.map] in the search handler. *)
Definition toResult (m : Match) : SearchResult :=
  {| result_id := id m;
     result_text := field_or (text (metadata m)) "";
     result_category := field_or (category (metadata m)) "general";
     result_source := field_or (source (metadata m)) "unknown";
     result_score := score m |}.

(** The handler of [GET /api/knowledge/search] from line 149 on, where it
    arrives when its validation found no error; [q] is the trimmed query
    string, which [generateEmbedding] wraps into a one-element array, and
    [queryLimit] the sanitised limit. *)
Definition searchKnowledge (env : Env) (q : string) (queryLimit : option nat)
    : M SearchResponse :=
  let limit := num_or queryLimit 5 in
  try_catch
    (let* embeddings := generateEmbedding env [q] in
     let embedding := head embeddings in
     let* matches := searchSimilar env embedding limit in
     let results := map toResult matches in
     ret (Results results))
    (fun error =>
       console_error "Knowledge search error:" (LogValue error) ;;
       ret SearchFailed500).

End KnowledgeRoute.

(** ** frontend/src/services/api.js *)
Module ApiClient.

(** [error.response]: the body's optional [error] and [message] and the
    status code. *)
Record ErrorResponse := mkErrorResponse {
  body_error : option string;
  body_message : option string;
  status : Z
}.

(** The rejection that the response interceptor receives; [has_request]
    tells whether [error.request] is set. *)
Record AxiosError := mkAxiosError {
  error_response : option ErrorResponse;
  has_request : bool;
  error_message : option string
}.

(** What the interceptors resolve to. *)
Inductive Standardized (A : Type) :=
| Success (data : A)
| Failure (error : string).
Arguments Success {A} data.
Arguments Failure {A} error.

(** The rejection handler of the response interceptor. *)
Definition onRejected {A} (error : AxiosError) : Standardized A :=
  let message :=
    match error_response error with
    | Some r =>
        OllamaService.field_or (body_error r)
          (OllamaService.field_or (body_message r)
             ("Request failed with status " +:+ pretty (status r)))
    | None =>
        if has_request error
        then "No response from server. Please check your connection or try again later."
        else OllamaService.field_or (error_message error) "An unexpected error occurred."
    end in
  Failure message.

End ApiClient.

(** ** Measures and orders used in the statements below *)

(** The number of events of a kind in a log. *)
Definition countEvents (kind : Event -> bool) (t : Trace) : nat :=
  length (List.filter kind t).

Definition isEmbeddingsPost (ev : Event) : bool :=
  match ev with EmbeddingsPost _ => true | _ => false end.

Definition isIndexQuery (ev : Event) : bool :=
  match ev with IndexQuery _ _ => true | _ => false end.

Definition isGeneratePost (ev : Event) : bool :=
  match ev with GeneratePost _ => true | _ => false end.

(** A computation only appends to the log, and appends at most [e]
    embedding requests, [q] index queries and [g] generation requests. *)
Definition withinBudget {A} (e q g : nat) (c : M A) : Prop :=
  forall t, exists added,
    (c t).2 = t ++ added
    /\ (countEvents isEmbeddingsPost added <= e)%nat
    /\ (countEvents isIndexQuery added <= q)%nat
    /\ (countEvents isGeneratePost added <= g)%nat.

(** [a] may stand before [b] in a list sorted by descending score. *)
Definition scoreDescending (a b : Match) : Prop :=
  (PineconeService.score_or_zero (score b) <= PineconeService.score_or_zero (score a))%Q.

(** More concrete inputs. *)
Module MoreExamples.

Definition runtime : ChatRoute.Runtime :=
  {| ChatRoute.uuid := "c2"; ChatRoute.createdAt := 10; ChatRoute.userMessageAt := 11;
     ChatRoute.assistantMessageAt := 12; ChatRoute.repliedAt := 13 |}.

(** Validators for the examples: white space is trimmed at both ends, and
    an id is valid when it has the 36 characters of a uuid. *)
Fixpoint trimFront (s : string) : string :=
  match s with
  | String c rest => if Ascii.is_space c then trimFront rest else s
  | EmptyString => s
  end.

Definition trimBoth (s : string) : string :=
  String.rev (trimFront (String.rev (trimFront s))).

Definition validators : ChatRoute.Validators :=
  {| ChatRoute.trim := trimBoth;
     ChatRoute.validateUuid := fun s => (String.length s =? 36)%nat |}.

Definition someUuid : string := "123e4567-e89b-42d3-a456-426614174000".

Definition flakyMatches : list RawMatch :=
  [ {| raw_id := "low"; raw_score := Some (3 # 10); raw_metadata := None |};
    {| raw_id := "top"; raw_score := Some (82 # 100);
       raw_metadata := Some {| text := Some "PTO policy: 20 days/year";
                               category := None; source := None |} |} ].

(** The index fails twice, then answers with two matches out of order. *)
Definition envFlaky : Env :=
  {| PINECONE_INDEX_NAME := Some "kb";
     pinecone_index := fun _ => Returned tt;
     index_query := fun t _ _ =>
       if decide (countEvents isIndexQuery t < 2)%nat
       then Threw (Primitive "timeout")
       else Returned {| matches := Some flakyMatches |};
     http_post_embeddings := fun _ _ => Returned (Some {| embedding := Some [1 # 2] |});
     http_post_generate := fun _ _ =>
       Returned (Some {| data_response := None; data_output := Some "20 days.";
                         data_message := None |}) |}.

(** One attempt of [searchSimilar] against that index. *)
Definition flakyAttempt : M (list Match) :=
  PineconeService.getIndex envFlaky ;;
  let* result := call (IndexQuery (Some [1 # 2]) 3)
                      (fun t => index_query envFlaky t (Some [1 # 2]) 3) in
  ret (PineconeService.sortByScore
         (map PineconeService.toMatch (default [] (matches result)))).

End MoreExamples.

(** * Verification *)

Import OllamaService PineconeService RagService.

(** ** JavaScript helpers *)

Lemma slice_last_length {A} (n : nat) (l : list A) :
  (n <= length l)%nat -> length (slice_last n l) = n.
Proof. intros H. unfold slice_last. rewrite length_drop. lia. Qed.

Lemma slice_last_lookup {A} (n : nat) (l : list A) (i : nat) :
  slice_last n l !! i = l !! (length l - n + i)%nat.
Proof. unfold slice_last. by rewrite lookup_drop. Qed.

Lemma slice_last_suffix {A} (n : nat) (l : list A) :
  l = take (length l - n) l ++ slice_last n l.
Proof. unfold slice_last. by rewrite take_drop. Qed.


Lemma str_or_nonempty s fallback : s <> "" -> str_or s fallback = s.
Proof. intros H. unfold str_or. by rewrite decide_False. Qed.

Lemma str_or_nonempty_result s fallback : fallback <> "" -> str_or s fallback <> "".
Proof. intros H. unfold str_or. by case_decide. Qed.


(** ** The conversation store *)

Section Store.
Import SessionManager.

Lemma addMessage_lookup (sessions : gmap string Session) id session r c now :
  id <> "" -> sessions !! id = Some session ->
  addMessage sessions id r c now !! id =
    Some {| messages := messages session ++ [ {| role := r; content := c; timestamp := now |} ];
            lastActivity := Some now; metadata := metadata session |}.
Proof.
  intros Hid Hs. unfold addMessage. rewrite decide_False by done.
  rewrite Hs. by rewrite lookup_insert_eq.
Qed.

(** [addMessage] on an unknown id changes nothing. *)
Lemma addMessage_unknown (sessions : gmap string Session) id r c now :
  sessions !! id = None -> addMessage sessions id r c now = sessions.
Proof. intros Hs. unfold addMessage. case_decide; [done|]. by rewrite Hs. Qed.

Lemma addMessages_lookup entries : forall (sessions : gmap string Session) id session,
  id <> "" -> sessions !! id = Some session ->
  exists last,
    addMessages sessions id entries !! id =
      Some {| messages := messages session ++ map pushed entries;
              lastActivity := last; metadata := metadata session |}.
Proof.
  induction entries as [|[[r c] now] entries IH]; intros sessions id session Hid Hs.
  - exists (lastActivity session). simpl. rewrite app_nil_r. by destruct session.
  - change (addMessages sessions id ((r, c, now) :: entries))
      with (addMessages (addMessage sessions id r c now) id entries).
    destruct (IH (addMessage sessions id r c now) id _ Hid
                 (addMessage_lookup _ _ _ r c now Hid Hs)) as [last Hl].
    exists last. rewrite Hl. simpl. by rewrite <- app_assoc.
Qed.

(** C4. Once more than ten messages have been appended to a conversation,
    [getConversation] returns exactly the last ten of them, in the order they
    were appended, with the conversation's metadata; for an id that is not in
    the store it returns [null] ([None]) and does not throw. *)
Theorem getConversation_last_ten :
  forall (sessions : gmap string Session) (id : string) (session : Session)
         (entries : list (string * string * Z)),
    id <> "" ->
    sessions !! id = Some session ->
    (10 < length (messages session ++ map pushed entries))%nat ->
    let appended := messages session ++ map pushed entries in
    let recent := drop (length appended - 10) appended in
    (getConversation (addMessages sessions id entries) id =
       Some {| conv_messages := recent; conv_metadata := metadata session |}
     /\ length recent = 10%nat
     /\ (forall i, (i < 10)%nat -> recent !! i = appended !! (length appended - 10 + i)%nat)
     /\ appended = take (length appended - 10) appended ++ recent)
    /\ (forall (other : gmap string Session) (unknown : string),
          other !! unknown = None -> getConversation other unknown = None).
Proof.
  intros sessions id session entries Hid Hs Hlen appended recent. split.
  - destruct (addMessages_lookup entries sessions id session Hid Hs) as [last Hl].
    unfold getConversation. rewrite Hl. simpl. repeat split.
    + apply (slice_last_length 10). subst appended. lia.
    + intros i _. apply (slice_last_lookup 10).
    + apply (slice_last_suffix 10).
  - intros other unknown Hnone. unfold getConversation. by rewrite Hnone.
Qed.

Lemma getConversation_last_ten_witness :
  "c1" <> ""
  /\ Examples.freshStore !! "c1" = Some Examples.freshSession
  /\ getConversation (addMessages Examples.freshStore "c1" Examples.elevenEntries) "c1" =
       Some {| conv_messages := map pushed (drop 1 Examples.elevenEntries);
               conv_metadata := {| userId := None; startTime := 0 |} |}.
Proof.
  assert (Hid : "c1" <> "") by discriminate.
  assert (Hs : Examples.freshStore !! "c1" = Some Examples.freshSession) by reflexivity.
  split; [exact Hid | split; [exact Hs |]].
  destruct (getConversation_last_ten Examples.freshStore "c1" Examples.freshSession
              Examples.elevenEntries Hid Hs) as [[H _] _].
  - simpl. lia.
  - exact H.
Defined.

Lemma cleanupStep_fst now id s st :
  (cleanupStep now id s st).1 = if expired now s then delete id st.1 else st.1.
Proof.
  unfold cleanupStep, expired. destruct (lastActivity s) as [last|]; [|done].
  case_decide; [rewrite bool_decide_eq_true_2|rewrite bool_decide_eq_false_2]; done.
Qed.

(** The sweep visits a part [visited] of the map while deleting from [init]. *)
Lemma cleanup_fold_lookup now (init visited : gmap string Session) id :
  (map_fold (cleanupStep now) (init, 0%nat) visited).1 !! id =
    match visited !! id with
    | Some s => if expired now s then None else init !! id
    | None => init !! id
    end.
Proof.
  revert id.
  apply (map_fold_weak_ind
           (fun (r : gmap string Session * nat) (m : gmap string Session) =>
              forall id, r.1 !! id =
                match m !! id with
                | Some s => if expired now s then None else init !! id
                | None => init !! id
                end)).
  - intros id. by rewrite lookup_empty.
  - intros i x m r Hi IH id. rewrite cleanupStep_fst.
    destruct (decide (i = id)) as [->|Hne].
    + rewrite lookup_insert_eq. destruct (expired now x).
      * by rewrite lookup_delete_eq.
      * by rewrite IH, Hi.
    + rewrite lookup_insert_ne by done.
      destruct (expired now x); [rewrite lookup_delete_ne by done|]; apply IH.
Qed.

(** The store after a sweep is the store without its expired entries. *)
Lemma cleanupInactive_lookup sessions now id :
  (cleanupInactive sessions now).1 !! id =
    match sessions !! id with
    | Some s => if expired now s then None else Some s
    | None => None
    end.
Proof.
  unfold cleanupInactive. rewrite cleanup_fold_lookup.
  destruct (sessions !! id) as [s|]; [destruct (expired now s)|]; done.
Qed.

(** C8. After one sweep at time [now], a conversation whose [lastActivity]
    lies more than one hour before [now] is absent from the store, and one
    whose [lastActivity] lies less than one hour before [now] is still there
    with the same record. *)
Theorem cleanupInactive_expiry :
  forall (sessions : gmap string Session) (now : Z) (id : string)
         (session : Session) (last : Z),
    sessions !! id = Some session ->
    lastActivity session = Some last ->
    (last < now - ONE_HOUR -> (cleanupInactive sessions now).1 !! id = None)
    /\ (now - ONE_HOUR < last -> (cleanupInactive sessions now).1 !! id = Some session).
Proof.
  intros sessions now id session last Hs Hlast.
  rewrite cleanupInactive_lookup, Hs. unfold expired. rewrite Hlast.
  split; intros H.
  - rewrite bool_decide_eq_true_2; [done | lia].
  - rewrite bool_decide_eq_false_2; [done | lia].
Qed.

Lemma cleanupInactive_expiry_witness :
  (cleanupInactive (Examples.storeAt (Some 0)) 3600001).1 !! "c1" = None
  /\ (cleanupInactive (Examples.storeAt (Some 2)) 3600001).1 !! "c1"
       = Some (Examples.sessionAt (Some 2)).
Proof.
  split.
  - apply (cleanupInactive_expiry (Examples.storeAt (Some 0)) 3600001 "c1"
             (Examples.sessionAt (Some 0)) 0); [reflexivity | reflexivity |].
    unfold ONE_HOUR. lia.
  - apply (cleanupInactive_expiry (Examples.storeAt (Some 2)) 3600001 "c1"
             (Examples.sessionAt (Some 2)) 2); [reflexivity | reflexivity |].
    unfold ONE_HOUR. lia.
Defined.

(** C10. The sweep deletes a conversation only when its inactivity age is
    strictly greater than one hour: a conversation last active exactly one
    hour before the sweep, or one whose record has no [lastActivity], is
    retained unchanged. *)
Theorem cleanupInactive_strict :
  forall (sessions : gmap string Session) (now : Z) (id : string) (session : Session),
    sessions !! id = Some session ->
    ((cleanupInactive sessions now).1 !! id = None
       <-> exists last, lastActivity session = Some last /\ now - last > ONE_HOUR)
    /\ (lastActivity session = Some (now - ONE_HOUR) ->
          (cleanupInactive sessions now).1 !! id = Some session)
    /\ (lastActivity session = None ->
          (cleanupInactive sessions now).1 !! id = Some session).
Proof.
  intros sessions now id session Hs.
  rewrite cleanupInactive_lookup, Hs. unfold expired.
  destruct (lastActivity session) as [last|].
  - destruct (decide (now - last > ONE_HOUR)) as [Hold|Hyoung].
    + rewrite bool_decide_eq_true_2 by done.
      split; [split; [intros _; by exists last | done] |].
      split; [intros [= ->]; lia | discriminate].
    + rewrite bool_decide_eq_false_2 by done.
      split; [split; [discriminate | by intros (l & [= <-] & H)] |].
      split; done.
  - split; [split; [discriminate | by intros (l & Hl & _)] |].
    split; done.
Qed.

Lemma cleanupInactive_strict_witness :
  (cleanupInactive (Examples.storeAt (Some 1)) 3600001).1 !! "c1"
     = Some (Examples.sessionAt (Some 1))
  /\ (cleanupInactive (Examples.storeAt None) 3600001).1 !! "c1"
       = Some (Examples.sessionAt None).
Proof.
  split.
  - destruct (cleanupInactive_strict (Examples.storeAt (Some 1)) 3600001 "c1"
                (Examples.sessionAt (Some 1))) as (_ & Hexact & _); [reflexivity |].
    apply Hexact. reflexivity.
  - destruct (cleanupInactive_strict (Examples.storeAt None) 3600001 "c1"
                (Examples.sessionAt None)) as (_ & _ & Hmissing); [reflexivity |].
    apply Hmissing. reflexivity.
Defined.

End Store.
(** ** The effect monad *)

Lemma generateRequests_app (t1 t2 : Trace) :
  generateRequests (t1 ++ t2) = generateRequests t1 ++ generateRequests t2.
Proof. apply omap_app. Qed.

Section Combinators.
Context {A B : Type}.

Lemma nn_ret (a : A) : neverThrowsNullish (ret a).
Proof. intros t. discriminate. Qed.

Lemma nn_throw_error (m : string) : neverThrowsNullish (@throw A (ErrorObject m)).
Proof. intros t. discriminate. Qed.

Lemma nn_bind (c : M A) (k : A -> M B) :
  neverThrowsNullish c -> (forall a, neverThrowsNullish (k a)) ->
  neverThrowsNullish (bind c k).
Proof.
  intros Hc Hk t. unfold bind. specialize (Hc t).
  destruct (c t) as [[a|e] t1]; [apply Hk |].
  simpl in *. congruence.
Qed.

Lemma nn_try_catch (c : M A) (h : Thrown -> M A) :
  (forall e, neverThrowsNullish (h e)) -> neverThrowsNullish (try_catch c h).
Proof.
  intros Hh t. unfold try_catch.
  destruct (c t) as [[a|e] t1]; [discriminate | apply Hh].
Qed.

Lemma quiet_ret (a : A) : postsNoGenerate (ret a).
Proof. intros t. reflexivity. Qed.

Lemma quiet_throw (e : Thrown) : postsNoGenerate (@throw A e).
Proof. intros t. reflexivity. Qed.

Lemma quiet_bind (c : M A) (k : A -> M B) :
  postsNoGenerate c -> (forall a, postsNoGenerate (k a)) -> postsNoGenerate (bind c k).
Proof.
  intros Hc Hk t. unfold bind. specialize (Hc t).
  destruct (c t) as [[a|e] t1]; simpl in *; [by rewrite Hk | done].
Qed.

Lemma quiet_try_catch (c : M A) (h : Thrown -> M A) :
  postsNoGenerate c -> (forall e, postsNoGenerate (h e)) -> postsNoGenerate (try_catch c h).
Proof.
  intros Hc Hh t. unfold try_catch. specialize (Hc t).
  destruct (c t) as [[a|e] t1]; simpl in *; [done | by rewrite Hh].
Qed.
End Combinators.

Lemma quiet_console_error label detail : postsNoGenerate (console_error label detail).
Proof.
  intros t. unfold console_error. simpl. rewrite generateRequests_app. simpl.
  by rewrite app_nil_r.
Qed.

Lemma nn_console_error label detail : neverThrowsNullish (console_error label detail).
Proof. intros t. discriminate. Qed.

Lemma quiet_message_or_self e : postsNoGenerate (message_or_self e).
Proof. destruct e; intros t; reflexivity. Qed.

Lemma nn_message_or_self e : neverThrowsNullish (message_or_self e).
Proof. destruct e; intros t; discriminate. Qed.

(** Reading [message] succeeds on everything but a nullish value. *)
Lemma message_or_self_returns e t :
  e <> Nullish -> exists detail, message_or_self e t = (Returned detail, t).
Proof. destruct e; intros H; [eexists; reflexivity | done | eexists; reflexivity]. Qed.

Lemma quiet_embeddings_call env tx :
  postsNoGenerate (call (EmbeddingsPost tx) (fun tr => http_post_embeddings env tr tx)).
Proof.
  intros t. unfold call. simpl. rewrite generateRequests_app. simpl. by rewrite app_nil_r.
Qed.

Lemma quiet_query_call env v k :
  postsNoGenerate (call (IndexQuery v k) (fun tr => index_query env tr v k)).
Proof.
  intros t. unfold call. simpl. rewrite generateRequests_app. simpl. by rewrite app_nil_r.
Qed.

Create HintDb effects.
#[local] Hint Resolve nn_ret nn_throw_error nn_bind nn_try_catch nn_console_error
  nn_message_or_self quiet_ret quiet_throw quiet_bind quiet_try_catch
  quiet_console_error quiet_message_or_self quiet_embeddings_call
  quiet_query_call : effects.

(** ** ollamaService.js *)

Lemma quiet_embedLoop env texts : forall acc, postsNoGenerate (embedLoop env texts acc).
Proof.
  induction texts as [|tx texts IH]; intros acc; simpl; [auto with effects|].
  apply quiet_bind; [auto with effects|].
  intros [data|]; [|auto with effects].
  destruct (embedding data); auto with effects.
Qed.

Lemma quiet_generateEmbedding env texts : postsNoGenerate (generateEmbedding env texts).
Proof.
  unfold generateEmbedding. apply quiet_try_catch; [apply quiet_embedLoop|].
  intros e. auto 6 with effects.
Qed.

Lemma nn_generateEmbedding env texts : neverThrowsNullish (generateEmbedding env texts).
Proof.
  unfold generateEmbedding. apply nn_try_catch. intros e. auto 6 with effects.
Qed.

(** ** pineconeService.js *)

Lemma quiet_getIndex env : postsNoGenerate (getIndex env).
Proof.
  unfold getIndex. destruct (PINECONE_INDEX_NAME env) as [name|]; [|auto with effects].
  case_decide; [auto with effects|].
  apply quiet_try_catch; [intros t; reflexivity|]. intros e. auto with effects.
Qed.

Lemma quiet_retryLoop {A} (fn : M A) attempts remaining :
  postsNoGenerate fn -> forall lastError,
  postsNoGenerate (retryLoop fn attempts remaining lastError).
Proof.
  intros Hfn. induction remaining as [|remaining IH]; intros lastError; simpl.
  - auto with effects.
  - apply quiet_try_catch; [done|]. intros e. auto 6 with effects.
Qed.

(** The retry handler: a nullish error stops it with a [TypeError], any other
    error is what the last attempt rethrows. *)
Lemma nn_retry_handler {A} (fn : M A) attempts remaining label e :
  (forall last, last <> Nullish ->
     neverThrowsNullish (retryLoop fn attempts remaining (Some last))) ->
  neverThrowsNullish
    (let* detail := message_or_self e in
     console_error label detail ;; retryLoop fn attempts remaining (Some e)).
Proof.
  intros IH. destruct e as [m| |s].
  - apply nn_bind; [auto with effects|]. intros d.
    apply nn_bind; [auto with effects|]. intros _. by apply IH.
  - intros t. discriminate.
  - apply nn_bind; [auto with effects|]. intros d.
    apply nn_bind; [auto with effects|]. intros _. by apply IH.
Qed.

Lemma nn_retryLoop {A} (fn : M A) attempts remaining :
  forall last, last <> Nullish ->
  neverThrowsNullish (retryLoop fn attempts remaining (Some last)).
Proof.
  induction remaining as [|remaining IH]; intros last Hlast; simpl.
  - intros t. simpl. congruence.
  - apply nn_try_catch. intros e. by apply nn_retry_handler.
Qed.

Lemma nn_withRetry {A} (fn : M A) attempts :
  (0 < attempts)%nat -> neverThrowsNullish (withRetry fn attempts).
Proof.
  intros H. unfold withRetry. destruct attempts as [|n]; [lia|]. simpl.
  apply nn_try_catch. intros e. apply nn_retry_handler, nn_retryLoop.
Qed.

Lemma quiet_searchSimilar env v k : postsNoGenerate (searchSimilar env v k).
Proof.
  unfold searchSimilar, withRetry. apply quiet_retryLoop.
  apply quiet_bind; [apply quiet_getIndex|]. intros _. auto with effects.
Qed.

Lemma nn_searchSimilar env v k : neverThrowsNullish (searchSimilar env v k).
Proof. unfold searchSimilar. apply nn_withRetry. lia. Qed.

(** When every attempt throws, so does the retry wrapper. *)
Lemma retryLoop_all_fail {A} (fn : M A) attempts remaining :
  (forall t, exists e t', fn t = (Threw e, t')) ->
  forall lastError t, exists e t',
    retryLoop fn attempts remaining lastError t = (Threw e, t').
Proof.
  intros Hfn. induction remaining as [|remaining IH]; intros lastError t; simpl.
  - unfold throw. eauto.
  - unfold try_catch. destruct (Hfn t) as (e & t' & ->).
    unfold bind. destruct e as [m| |s]; simpl; try apply IH.
    unfold throw. eauto.
Qed.

(** The index query fails on every attempt. *)
Lemma searchSimilar_index_down env v k :
  (forall t, exists e, index_query env t v k = Threw e) ->
  forall t, exists e t', searchSimilar env v k t = (Threw e, t').
Proof.
  intros Hdown. unfold searchSimilar, withRetry. apply retryLoop_all_fail.
  intros t. unfold bind at 1.
  destruct (getIndex env t) as [[[]|e] t0]; [|eauto].
  unfold bind, call. destruct (Hdown t0) as [e ->]. eauto.
Qed.

(** ** ragService.js: retrieval *)

(** The retrieval step throws when the embedding request fails. *)
Lemma getRelevantContext_embedding_failure env q k t :
  embeddingFailed (http_post_embeddings env t q) ->
  exists m t1, getRelevantContext env q k t = (Threw (ErrorObject m), t1).
Proof.
  unfold getRelevantContext, generateEmbedding. simpl.
  unfold bind, try_catch, call, throw, ret, console_error.
  destruct (http_post_embeddings env t q) as [[data|]|e]; simpl.
  - intros ->. eauto.
  - intros _. eauto.
  - intros _. destruct e as [m| |s]; simpl; try case_decide; simpl; eauto.
Qed.

(** The retrieval step throws when the index query fails on every attempt. *)
Lemma getRelevantContext_index_failure env q k :
  (forall t v, exists e, index_query env t v k = Threw e) ->
  forall t, exists e t1, getRelevantContext env q k t = (Threw e, t1).
Proof.
  intros Hdown t. unfold getRelevantContext. unfold bind at 1.
  destruct (generateEmbedding env [q] t) as [[embeddings|e] t0]; [|eauto].
  unfold bind.
  destruct (searchSimilar_index_down env (head embeddings) k (fun t' => Hdown t' _) t0)
    as (e & t1 & ->).
  eauto.
Qed.

Lemma quiet_getRelevantContext env q k : postsNoGenerate (getRelevantContext env q k).
Proof.
  unfold getRelevantContext. apply quiet_bind; [apply quiet_generateEmbedding|].
  intros embeddings. apply quiet_bind; [apply quiet_searchSimilar|]. auto with effects.
Qed.

Lemma nn_getRelevantContext env q k : neverThrowsNullish (getRelevantContext env q k).
Proof.
  unfold getRelevantContext. apply nn_bind; [apply nn_generateEmbedding|].
  intros embeddings. apply nn_bind; [apply nn_searchSimilar|]. auto with effects.
Qed.

Lemma getRelevantContext_renders env q k t ctx t1 :
  getRelevantContext env q k t = (Returned ctx, t1) ->
  contextText ctx = renderContext (documents ctx).
Proof.
  unfold getRelevantContext, bind, ret.
  destruct (generateEmbedding env [q] t) as [[embeddings|e] t0]; [|discriminate].
  destruct (searchSimilar env (head embeddings) k t0) as [[found|e] t2]; [|discriminate].
  by intros [= <- _].
Qed.

Lemma retrieveContext_on_success env q t ctx t1 :
  getRelevantContext env q 3 t = (Returned ctx, t1) ->
  retrieveContext env q t = (Returned ctx, t1).
Proof. intros H. unfold retrieveContext, try_catch. by rewrite H. Qed.

Lemma retrieveContext_on_failure env q t e t1 :
  getRelevantContext env q 3 t = (Threw e, t1) ->
  exists detail,
    message_or_self e t1 = (Returned detail, t1)
    /\ retrieveContext env q t =
         (Returned emptyContext,
          t1 ++ [ConsoleError "Failed to retrieve context from Pinecone:" detail]).
Proof.
  intros H.
  assert (He : e <> Nullish).
  { intros ->. apply (nn_getRelevantContext env q 3 t). by rewrite H. }
  destruct (message_or_self_returns e t1 He) as [detail Hd].
  exists detail. split; [done|].
  unfold retrieveContext, try_catch. rewrite H.
  unfold bind. rewrite Hd. reflexivity.
Qed.

Lemma retrieveContext_returns env q t :
  exists ctx t1, retrieveContext env q t = (Returned ctx, t1).
Proof.
  destruct (getRelevantContext env q 3 t) as [[ctx|e] t1] eqn:H.
  - exists ctx, t1. by apply retrieveContext_on_success.
  - destruct (retrieveContext_on_failure env q t e t1 H) as (detail & _ & Hr). eauto.
Qed.

Lemma quiet_retrieveContext env q : postsNoGenerate (retrieveContext env q).
Proof.
  unfold retrieveContext. apply quiet_try_catch; [apply quiet_getRelevantContext|].
  intros e. auto 6 with effects.
Qed.

(** ** ollamaService.js: generation *)

(** [generateResponse] posts one request, the full prompt, whatever follows. *)
Lemma generateResponse_posts env p h t :
  generateRequests (generateResponse env p h t).2 =
    generateRequests t ++ [fullPrompt p h].
Proof.
  unfold generateResponse, try_catch, bind, call, throw, ret, console_error.
  destruct (http_post_generate env t (fullPrompt p h)) as [[data|]|e].
  - case_decide; simpl; rewrite ?generateRequests_app; simpl; by rewrite ?app_nil_r.
  - simpl. rewrite !generateRequests_app. simpl. by rewrite app_nil_r.
  - destruct e as [m| |s]; simpl; try case_decide; simpl;
      rewrite ?generateRequests_app; simpl; by rewrite ?app_nil_r.
Qed.

(** What [generateResponse] throws is always an [Error] object. *)
Lemma generateResponse_throws env p h t e t1 :
  generateResponse env p h t = (Threw e, t1) -> exists m, e = ErrorObject m.
Proof.
  unfold generateResponse, try_catch, bind, call, throw, ret, console_error.
  destruct (http_post_generate env t (fullPrompt p h)) as [[data|]|e0].
  - case_decide; simpl; intros [= <- _]; eauto.
  - simpl. intros [= <- _]. eauto.
  - destruct e0 as [m| |s]; simpl; try case_decide; simpl; intros [= <- _]; eauto.
Qed.

(** The generation step throws exactly when the request to the model failed. *)
Lemma generateResponse_fails env p h t :
  generationFailed (http_post_generate env t (fullPrompt p h)) ->
  exists m t1, generateResponse env p h t = (Threw (ErrorObject m), t1).
Proof.
  unfold generateResponse, try_catch, bind, call, throw, ret, console_error.
  destruct (http_post_generate env t (fullPrompt p h)) as [[data|]|e]; simpl.
  - intros ->. rewrite decide_True by done. simpl. eauto.
  - intros _. eauto.
  - intros _. destruct e as [m| |s]; simpl; try case_decide; simpl; eauto.
Qed.

Lemma generateResponse_succeeds env p h t data :
  http_post_generate env t (fullPrompt p h) = Returned (Some data) ->
  textOf data <> "" ->
  generateResponse env p h t = (Returned (textOf data), t ++ [GeneratePost (fullPrompt p h)]).
Proof.
  intros H Htext.
  unfold generateResponse, try_catch, bind, call, throw, ret, console_error.
  rewrite H. by rewrite decide_False.
Qed.

(** ** ragService.js: the orchestrator *)

(** The orchestrator in terms of its two steps. *)
Lemma generateRAGResponse_steps env q h t ctx t1 :
  retrieveContext env q t = (Returned ctx, t1) ->
  let tail := historyTail h in
  generateRAGResponse env q h t =
    match generateResponse env (ragPrompt (contextText ctx) tail q) tail t1 with
    | (Returned text, t2) =>
        (Returned {| response := text; sources := documents ctx;
                     confidence := estimateConfidence (documents ctx) |}, t2)
    | (Threw e, t2) =>
        (let* detail := message_or_self e in
         console_error "RAG generation error:" detail ;; ret fallbackResult) t2
    end.
Proof.
  intros Hr tail. unfold generateRAGResponse, try_catch at 1. unfold bind at 1.
  rewrite Hr. unfold bind at 1. fold tail.
  destruct (generateResponse env (ragPrompt (contextText ctx) tail q) tail t1)
    as [[text|e] t2]; reflexivity.
Qed.

(** C1. Whatever the query, the history and the behaviour of the embedding,
    index and generation services (each may return anything or throw anything,
    and may change its answer between calls), [generateRAGResponse] returns a
    result record and throws nothing; the label of the result is the estimate
    for its sources. When the generation step throws, which it does whenever
    the request to the model throws or comes back without text, the result is
    the fixed apology with no sources and confidence [low]. *)
Theorem generateRAGResponse_never_throws :
  forall (env : Env) (userQuery : string) (conversationHistory : list Message) (t : Trace),
  exists (result : RAGResult) (t' : Trace),
    generateRAGResponse env userQuery conversationHistory t = (Returned result, t')
    /\ confidence result = estimateConfidence (sources result)
    /\ (forall ctx t1 e t2,
          retrieveContext env userQuery t = (Returned ctx, t1) ->
          generateResponse env
            (ragPrompt (contextText ctx) (historyTail conversationHistory) userQuery)
            (historyTail conversationHistory) t1 = (Threw e, t2) ->
          result = fallbackResult
          /\ sources result = [] /\ confidence result = low)
    /\ (forall ctx t1,
          retrieveContext env userQuery t = (Returned ctx, t1) ->
          generationFailed
            (http_post_generate env t1
               (fullPrompt
                  (ragPrompt (contextText ctx) (historyTail conversationHistory) userQuery)
                  (historyTail conversationHistory))) ->
          result = fallbackResult).
Proof.
  intros env q h t.
  destruct (retrieveContext_returns env q t) as (ctx & t1 & Hr).
  rewrite (generateRAGResponse_steps env q h t ctx t1 Hr). simpl.
  destruct (generateResponse env (ragPrompt (contextText ctx) (historyTail h) q)
              (historyTail h) t1) as [[text|e] t2] eqn:Hg.
  - eexists _, _. split; [reflexivity|]. split; [reflexivity|]. split.
    + intros ctx' t1' e t2' Hr'. rewrite Hr in Hr'. injection Hr' as <- <-.
      rewrite Hg. discriminate.
    + intros ctx' t1' Hr' Hfailed. rewrite Hr in Hr'. injection Hr' as <- <-.
      destruct (generateResponse_fails _ _ _ _ Hfailed) as (m & t3 & Hthrow).
      rewrite Hg in Hthrow. discriminate.
  - destruct (generateResponse_throws _ _ _ _ _ _ Hg) as [m ->].
    eexists _, _. split; [reflexivity|]. split; [reflexivity|].
    split; [intros _ _ _ _ _ _; repeat split | intros _ _ _ _; reflexivity].
Qed.

Lemma generateRAGResponse_never_throws_witness :
  (generateRAGResponse Examples.envDown "hi" [] []).1 = Returned fallbackResult.
Proof.
  destruct (generateRAGResponse_never_throws Examples.envDown "hi" [] [])
    as (result & t' & Hrun & _ & Hfail & _).
  rewrite Hrun. simpl. f_equal.
  edestruct Hfail as [Hresult _]; [vm_compute; reflexivity | vm_compute; reflexivity |].
  exact Hresult.
Defined.

(** C7. When the retrieval step ([getRelevantContext]: the embedding request
    or the index query) throws, the orchestrator logs the failure, keeps the
    empty context text and the empty document list, and goes on to the
    generation step with them: it returns a result with no sources and
    confidence [low], whose text is the generated one when generation
    succeeds. Nothing is thrown to the caller. *)
Theorem retrieval_failure_degrades :
  forall (env : Env) (userQuery : string) (conversationHistory : list Message)
         (t : Trace) (contextError : Thrown) (t1 : Trace),
    getRelevantContext env userQuery 3 t = (Threw contextError, t1) ->
    exists (detail : Logged) (result : RAGResult) (t' : Trace),
      let t2 := t1 ++ [ConsoleError "Failed to retrieve context from Pinecone:" detail] in
      let tail := historyTail conversationHistory in
      retrieveContext env userQuery t = (Returned emptyContext, t2)
      /\ generateRAGResponse env userQuery conversationHistory t = (Returned result, t')
      /\ sources result = []
      /\ confidence result = low
      /\ match generateResponse env (ragPrompt "" tail userQuery) tail t2 with
         | (Returned text, t3) =>
             result = {| response := text; sources := []; confidence := low |} /\ t' = t3
         | (Threw _, _) => result = fallbackResult
         end.
Proof.
  intros env q h t e t1 Hfail.
  destruct (retrieveContext_on_failure env q t e t1 Hfail) as (detail & _ & Hr).
  exists detail.
  rewrite (generateRAGResponse_steps env q h t _ _ Hr). simpl.
  destruct (generateResponse env (ragPrompt "" (historyTail h) q) (historyTail h)
              (t1 ++ [ConsoleError "Failed to retrieve context from Pinecone:" detail]))
    as [[text|e'] t3] eqn:Hg.
  - eexists _, _. repeat split; try reflexivity. exact Hr.
  - destruct (generateResponse_throws _ _ _ _ _ _ Hg) as [m ->].
    eexists _, _. repeat split; try reflexivity. exact Hr.
Qed.

Lemma retrieval_failure_degrades_witness :
  (getRelevantContext Examples.envRetrievalDown "hi" 3 []).1
    = Threw (ErrorObject "Failed to generate embeddings from Ollama.")
  /\ exists result t',
       generateRAGResponse Examples.envRetrievalDown "hi" [] [] = (Returned result, t')
       /\ sources result = [] /\ confidence result = low.
Proof.
  split; [reflexivity|].
  edestruct (retrieval_failure_degrades Examples.envRetrievalDown "hi" [] [])
    as (detail & result & t' & _ & Hrun & Hsources & Hconfidence & _);
    [vm_compute; reflexivity |].
  exists result, t'. split; [exact Hrun | split; [exact Hsources | exact Hconfidence]].
Defined.

(** The prompt argument of [generateResponse] is the composer's output. *)
Lemma ragPrompt_is_compose contextText tail q :
  ragPrompt contextText tail q =
    Spec.compose ("System: " +:+ systemPrompt) (contextSection contextText)
      (historySection tail) ("User question: " +:+ q) closingInstruction.
Proof. reflexivity. Qed.

(** C2, as amended. The orchestrator hands the composer's output (the
    sections in the fixed order) to [generateResponse] as its prompt argument,
    together with the truncated history; the text that [generateResponse]
    posts to the model is that output followed by a blank line, the header
    "Conversation so far:", the history lines, a blank line and the cue
    "Assistant:". It is the only generation request of the call. *)
Theorem prompt_sent_to_model :
  forall (env : Env) (userQuery : string) (conversationHistory : list Message) (t : Trace),
  exists (ctx : ContextResult) (t1 : Trace),
    let tail := historyTail conversationHistory in
    let composed :=
      Spec.compose ("System: " +:+ systemPrompt) (contextSection (contextText ctx))
        (historySection tail) ("User question: " +:+ userQuery) closingInstruction in
    retrieveContext env userQuery t = (Returned ctx, t1)
    /\ ragPrompt (contextText ctx) tail userQuery = composed
    /\ generateRequests (generateRAGResponse env userQuery conversationHistory t).2 =
         generateRequests t ++
           [composed +:+ nl +:+ nl +:+ "Conversation so far:" +:+ nl
              +:+ join nl (map historyLine tail) +:+ nl +:+ nl +:+ "Assistant:"].
Proof.
  intros env q h t.
  destruct (retrieveContext_returns env q t) as (ctx & t1 & Hr).
  exists ctx, t1. simpl. split; [exact Hr|]. split; [reflexivity|].
  rewrite (generateRAGResponse_steps env q h t ctx t1 Hr). simpl.
  pose proof (generateResponse_posts env (ragPrompt (contextText ctx) (historyTail h) q)
                (historyTail h) t1) as Hp.
  pose proof (quiet_retrieveContext env q t) as Hq. rewrite Hr in Hq. simpl in Hq.
  rewrite Hq in Hp.
  destruct (generateResponse env (ragPrompt (contextText ctx) (historyTail h) q)
              (historyTail h) t1) as [[text|e] t2] eqn:Hg.
  - simpl in *. rewrite Hp. reflexivity.
  - destruct (generateResponse_throws _ _ _ _ _ _ Hg) as [m ->].
    simpl in *. rewrite generateRequests_app, Hp. simpl. rewrite app_nil_r. reflexivity.
Qed.

(** C2 as stated fails: with every service down, an empty history and the
    query "hi", the one text posted to the model is not the composer's
    output; it is longer, by the appended "Conversation so far:" block. *)
Lemma sent_text_is_not_the_composed_prompt :
  generateRequests (generateRAGResponse Examples.envDown "hi" [] []).2
    = [ragPrompt "" [] "hi" +:+ nl +:+ nl +:+ "Conversation so far:" +:+ nl
         +:+ nl +:+ nl +:+ "Assistant:"]
  /\ generateRequests (generateRAGResponse Examples.envDown "hi" [] []).2
       <> [Spec.compose ("System: " +:+ systemPrompt) (contextSection "")
             (historySection []) ("User question: " +:+ "hi") closingInstruction].
Proof.
  split; [vm_compute; reflexivity|].
  intros H.
  apply (f_equal (fun l => match l with [s] => String.length s | _ => 0%nat end)) in H.
  vm_compute in H. discriminate H.
Qed.

(** ** ragService.js: the confidence label *)

Lemma score_or_zero_scoreOf d : (score_or_zero (score d) == Spec.scoreOf d)%Q.
Proof.
  unfold score_or_zero, Spec.scoreOf. destruct (score d) as [q|]; [|reflexivity].
  destruct (Qeq_bool q 0) eqn:H; [|reflexivity].
  apply Qeq_bool_iff in H. by rewrite H.
Qed.

Lemma fold_left_Qmax_upper (rest : list Q) : forall a,
  (a <= fold_left Qmax rest a)%Q
  /\ forall x, In x rest -> (x <= fold_left Qmax rest a)%Q.
Proof.
  induction rest as [|y rest IH]; intros a; simpl.
  - split; [apply Qle_refl | tauto].
  - destruct (IH (Qmax a y)) as [H1 H2]. split.
    + eapply Qle_trans; [apply Q.le_max_l | exact H1].
    + intros x [<-|Hx]; [|by apply H2].
      eapply Qle_trans; [apply Q.le_max_r | exact H1].
Qed.

Lemma fold_left_Qmax_attained (rest : list Q) : forall a,
  exists x, In x (a :: rest) /\ (x == fold_left Qmax rest a)%Q.
Proof.
  induction rest as [|y rest IH]; intros a; simpl.
  - exists a. split; [by left | reflexivity].
  - destruct (IH (Qmax a y)) as (x & [<-|Hx] & Heq).
    + destruct (Q.max_spec a y) as [[_ E]|[_ E]].
      * exists y. split; [right; by left|]. by rewrite <- Heq, E.
      * exists a. split; [by left|]. by rewrite <- Heq, E.
    + exists x. split; [right; by right | exact Heq].
Qed.

(** The code's [maxScore] is the maximum the specification describes. *)
Lemma maxScoreOf_isMaxScore (documents : list Match) :
  Spec.isMaxScore documents (maxScoreOf (map (fun d => score_or_zero (score d)) documents)).
Proof.
  destruct documents as [|d0 rest]; [reflexivity|].
  unfold Spec.isMaxScore. remember (d0 :: rest) as documents eqn:Hdocs.
  assert (Hmap : map (fun d => score_or_zero (score d)) documents =
                 score_or_zero (score d0) :: map (fun d => score_or_zero (score d)) rest)
    by (by subst).
  rewrite Hmap. simpl maxScoreOf.
  set (scores := map (fun d => score_or_zero (score d)) rest).
  destruct (fold_left_Qmax_upper scores (score_or_zero (score d0))) as [H0 Hrest].
  split.
  - intros d Hd. rewrite <- score_or_zero_scoreOf. subst documents.
    destruct Hd as [<-|Hd]; [exact H0|].
    apply Hrest. subst scores. apply in_map_iff. eauto.
  - destruct (fold_left_Qmax_attained scores (score_or_zero (score d0)))
      as (x & [<-|Hx] & Heq).
    + exists d0. subst documents. split; [by left|].
      by rewrite <- score_or_zero_scoreOf.
    + subst scores. apply in_map_iff in Hx as (d & <- & Hd).
      exists d. subst documents. split; [by right|].
      by rewrite <- score_or_zero_scoreOf.
Qed.

Lemma isMaxScore_unique documents m1 m2 :
  Spec.isMaxScore documents m1 -> Spec.isMaxScore documents m2 -> (m1 == m2)%Q.
Proof.
  destruct documents as [|d0 rest]; simpl.
  - intros -> ->. reflexivity.
  - intros [U1 (d1 & I1 & E1)] [U2 (d2 & I2 & E2)].
    apply Qle_antisym.
    + rewrite <- E1. by apply U2.
    + rewrite <- E2. by apply U1.
Qed.

Lemma Qle_bool_false a b : Qle_bool a b = false -> (b < a)%Q.
Proof.
  intros H. apply Qnot_le_lt. intros Hle. apply Qle_bool_iff in Hle. congruence.
Qed.

(** The literals are the doubles nearest to 7/10 and 4/10: each lies within
    half the spacing of the doubles around it (2^-53 and 2^-54). *)
Lemma literals_nearest :
  (literal_0_7 < 7 # 10)%Q
  /\ ((7 # 10) - literal_0_7 < 1 # 18014398509481984)%Q
  /\ (4 # 10 < literal_0_4)%Q
  /\ (literal_0_4 - (4 # 10) < 1 # 36028797018963968)%Q.
Proof. unfold literal_0_7, literal_0_4, Qlt, Qminus, Qplus, Qopp. simpl. lia. Qed.

Lemma literal_0_4_le_0_7 : (literal_0_4 <= literal_0_7)%Q.
Proof. unfold literal_0_4, literal_0_7, Qle. simpl. lia. Qed.

Lemma literal_0_4_positive : (0 < literal_0_4)%Q.
Proof. unfold literal_0_4, Qlt. simpl. lia. Qed.

(** The three branches of the label, on the code's own [maxScore]. *)
Lemma estimateConfidence_cases documents :
  let maxScore := maxScoreOf (map (fun d => score_or_zero (score d)) documents) in
  ((literal_0_7 <= maxScore)%Q -> estimateConfidence documents = high)
  /\ ((literal_0_4 <= maxScore)%Q /\ (maxScore < literal_0_7)%Q ->
        estimateConfidence documents = medium)
  /\ ((maxScore < literal_0_4)%Q -> estimateConfidence documents = low).
Proof.
  intros maxScore. unfold estimateConfidence. fold maxScore.
  destruct (Qle_bool literal_0_7 maxScore) eqn:H7.
  - apply Qle_bool_iff in H7. split; [done|]. split.
    + intros [_ Hlt]. destruct (Qlt_not_le _ _ Hlt H7).
    + intros Hlt. exfalso. apply (Qlt_not_le _ _ Hlt).
      eapply Qle_trans; [apply literal_0_4_le_0_7 | exact H7].
  - apply Qle_bool_false in H7.
    destruct (Qle_bool literal_0_4 maxScore) eqn:H4.
    + apply Qle_bool_iff in H4.
      split; [intros H; destruct (Qlt_not_le _ _ H7 H)|]. split; [done|].
      intros Hlt. destruct (Qlt_not_le _ _ Hlt H4).
    + apply Qle_bool_false in H4.
      split; [intros H; destruct (Qlt_not_le _ _ H7 H)|].
      split; [intros [H _]; destruct (Qlt_not_le _ _ H4 H) | done].
Qed.

(** C3. For every list of retrieved documents, with [maxScore] the maximum
    of their scores, or 0 when the list is empty: the label is [high] when
    [maxScore >= 0.7], [medium] when [0.4 <= maxScore < 0.7] and [low]
    otherwise, where [0.7] and [0.4] are the numbers these literals denote
    in the program; the empty list gets [low]. (Every list has such a
    maximum, [maxScoreOf_isMaxScore].) *)
Theorem estimateConfidence_thresholds :
  forall (documents : list Match) (maxScore : Q),
    Spec.isMaxScore documents maxScore ->
    ((literal_0_7 <= maxScore)%Q -> estimateConfidence documents = high)
    /\ ((literal_0_4 <= maxScore)%Q /\ (maxScore < literal_0_7)%Q ->
          estimateConfidence documents = medium)
    /\ ((maxScore < literal_0_4)%Q -> estimateConfidence documents = low)
    /\ (documents = [] -> (maxScore == 0)%Q /\ estimateConfidence documents = low).
Proof.
  intros documents maxScore Hmax.
  pose proof (isMaxScore_unique _ _ _ Hmax (maxScoreOf_isMaxScore documents)) as Heq.
  destruct (estimateConfidence_cases documents) as (Hhigh & Hmedium & Hlow).
  simpl in Hhigh, Hmedium, Hlow. rewrite <- Heq in Hhigh, Hmedium, Hlow.
  split; [exact Hhigh|]. split; [exact Hmedium|]. split; [exact Hlow|].
  intros ->. split; [exact Hmax | reflexivity].
Qed.

Lemma isMaxScore_single q : Spec.isMaxScore [Examples.scored q] q.
Proof.
  split.
  - intros d [<-|[]]. apply Qle_refl.
  - exists (Examples.scored q). split; [by left | reflexivity].
Defined.

Lemma estimateConfidence_thresholds_witness :
  estimateConfidence [Examples.scored Examples.double_0_71] = high
  /\ estimateConfidence [Examples.scored literal_0_7] = high
  /\ estimateConfidence [Examples.scored Examples.double_0_55] = medium
  /\ estimateConfidence [Examples.scored Examples.double_0_1] = low
  /\ estimateConfidence [] = low.
Proof.
  split; [|split; [|split; [|split]]].
  - destruct (estimateConfidence_thresholds [Examples.scored Examples.double_0_71]
                Examples.double_0_71 (isMaxScore_single _)) as (H & _).
    apply H. unfold Qle. simpl. lia.
  - destruct (estimateConfidence_thresholds [Examples.scored literal_0_7]
                literal_0_7 (isMaxScore_single _)) as (H & _).
    apply H. apply Qle_refl.
  - destruct (estimateConfidence_thresholds [Examples.scored Examples.double_0_55]
                Examples.double_0_55 (isMaxScore_single _)) as (_ & H & _).
    apply H. unfold Qle, Qlt. simpl. lia.
  - destruct (estimateConfidence_thresholds [Examples.scored Examples.double_0_1]
                Examples.double_0_1 (isMaxScore_single _)) as (_ & _ & H & _).
    apply H. unfold Qlt. simpl. lia.
  - destruct (estimateConfidence_thresholds [] 0%Q) as (_ & _ & _ & H);
      [simpl; reflexivity |].
    by apply H.
Defined.

(** ** ragService.js: the sections of the prompt *)










Lemma contextPart_without_text idx m :
  text (metadata m) = None ->
  contextPart idx m =
    "Source " +:+ pretty (idx + 1)%nat +:+ " (score: "
      +:+ match score m with Some sc => toFixed3 sc | None => "n/a" end
      +:+ "):" +:+ nl +:+ "".
Proof. intros H. unfold contextPart. by rewrite H. Qed.










(** * Further properties of the code *)

(** ** sessionManager.js *)

Section StoreOperations.
Import SessionManager.

(** X1. [createSession] returns the id it stored; the new conversation has
    no messages, the given user id and the creation time as start time, and
    no other conversation is touched. *)
Theorem createSession_registers :
  forall (sessions : gmap string Session) (id : string) (now : Z) (user : option string),
    (createSession sessions id now user).2 = id
    /\ getConversation (createSession sessions id now user).1 id =
         Some {| conv_messages := [];
                 conv_metadata := {| userId := user; startTime := now |} |}
    /\ (createSession sessions id now user).1 !! id =
         Some {| messages := []; lastActivity := Some now;
                 metadata := {| userId := user; startTime := now |} |}
    /\ (forall other, other <> id ->
          (createSession sessions id now user).1 !! other = sessions !! other).
Proof.
  intros sessions id now user. unfold createSession, getConversation. simpl.
  rewrite lookup_insert_eq. repeat split.
  intros other Hother. by rewrite lookup_insert_ne.
Qed.

(** X2. [addMessage] with an empty id, or with an id that is not in the
    store, leaves the whole store as it was: the message is dropped and
    nothing is created. *)
Theorem addMessage_ignored :
  forall (sessions : gmap string Session) (id r c : string) (now : Z),
    id = "" \/ sessions !! id = None ->
    addMessage sessions id r c now = sessions.
Proof.
  intros sessions id r c now [-> | Hnone]; unfold addMessage.
  - reflexivity.
  - case_decide; [done|]. by rewrite Hnone.
Qed.

Lemma addMessage_ignored_witness :
  addMessage Examples.freshStore "" "user" "hello" 5 = Examples.freshStore
  /\ addMessage Examples.freshStore "c9" "user" "hello" 5 = Examples.freshStore.
Proof.
  split.
  - apply addMessage_ignored. by left.
  - apply addMessage_ignored. right. reflexivity.
Defined.

(** X3. [addMessage] never creates or removes a conversation and never
    touches a conversation other than the addressed one. *)
Theorem addMessage_frame :
  forall (sessions : gmap string Session) (id r c : string) (now : Z),
    dom (addMessage sessions id r c now) = dom sessions
    /\ (forall other, other <> id ->
          addMessage sessions id r c now !! other = sessions !! other).
Proof.
  intros sessions id r c now. unfold addMessage.
  case_decide; [done|].
  destruct (sessions !! id) as [session|] eqn:Hs; [|done]. split.
  - apply dom_insert_lookup_L. by rewrite Hs.
  - intros other Hother. by rewrite lookup_insert_ne.
Qed.

(** X4. What [getConversation] returns for a stored conversation: its
    metadata and a suffix of its messages, of length the smaller of 10 and the
    number stored; with at most ten stored messages that is all of them. *)
Theorem getConversation_window :
  forall (sessions : gmap string Session) (id : string) (session : Session),
    sessions !! id = Some session ->
    exists conversation,
      getConversation sessions id = Some conversation
      /\ conv_metadata conversation = metadata session
      /\ length (conv_messages conversation) = Nat.min 10 (length (messages session))
      /\ messages session =
           take (length (messages session) - 10) (messages session)
             ++ conv_messages conversation
      /\ ((length (messages session) <= 10)%nat ->
            conv_messages conversation = messages session).
Proof.
  intros sessions id session Hs. unfold getConversation. rewrite Hs.
  eexists. split; [reflexivity|]. cbn [conv_messages conv_metadata].
  split; [reflexivity|].
  split; [unfold slice_last; rewrite length_drop; lia|].
  split; [apply slice_last_suffix|].
  intros Hshort. unfold slice_last.
  by replace (length (messages session) - 10)%nat with 0%nat by lia.
Qed.

Lemma getConversation_window_witness :
  exists conversation,
    getConversation (addMessages Examples.freshStore "c1" (take 3 Examples.elevenEntries)) "c1"
      = Some conversation
    /\ length (conv_messages conversation) = 3%nat.
Proof.
  destruct (getConversation_window
              (addMessages Examples.freshStore "c1" (take 3 Examples.elevenEntries)) "c1"
              {| messages := map pushed (take 3 Examples.elevenEntries);
                 lastActivity := Some 3;
                 metadata := {| userId := None; startTime := 0 |} |})
    as (conversation & Hget & _ & Hlen & _); [reflexivity|].
  exists conversation. split; [exact Hget | exact Hlen].
Defined.

(** X5. [deleteSession] reports [true] exactly when the conversation was
    there; afterwards the conversation is gone, every other one is untouched,
    and deleting it again reports [false]. *)
Theorem deleteSession_once :
  forall (sessions : gmap string Session) (id : string),
    ((deleteSession sessions id).2 = true <-> is_Some (sessions !! id))
    /\ getConversation (deleteSession sessions id).1 id = None
    /\ (forall other, other <> id ->
          (deleteSession sessions id).1 !! other = sessions !! other)
    /\ (deleteSession (deleteSession sessions id).1 id).2 = false.
Proof.
  intros sessions id. unfold deleteSession, getConversation. simpl.
  rewrite lookup_delete_eq. split; [apply bool_decide_eq_true|].
  split; [reflexivity|]. split.
  - intros other Hother. by rewrite lookup_delete_ne.
  - apply bool_decide_eq_false. by intros [x Hx].
Qed.

(** The counter of the sweep is the number of expired entries visited. *)
Lemma cleanup_fold_count now (init visited : gmap string Session) :
  (map_fold (cleanupStep now) (init, 0%nat) visited).2 =
    size (filter (fun kv : string * Session => expired now kv.2 = true) visited).
Proof.
  apply (map_fold_weak_ind
           (fun (r : gmap string Session * nat) (m : gmap string Session) =>
              r.2 = size (filter (fun kv : string * Session => expired now kv.2 = true) m))).
  - by rewrite map_filter_empty, map_size_empty.
  - intros i x m r Hi IH.
    unfold cleanupStep. destruct (expired now x) eqn:Hx; unfold expired in Hx.
    + rewrite map_filter_insert_True by (simpl; unfold expired; done).
      rewrite map_size_insert_None by (by rewrite map_lookup_filter, Hi).
      destruct (lastActivity x) as [last|]; [|done].
      apply bool_decide_eq_true in Hx. rewrite decide_True by done. simpl. lia.
    + rewrite map_filter_insert_False by (simpl; unfold expired; congruence).
      rewrite (delete_id m i Hi).
      destruct (lastActivity x) as [last|]; [|done].
      apply bool_decide_eq_false in Hx. by rewrite decide_False.
Qed.

(** The store after a sweep, as a filter. *)
Lemma cleanupInactive_kept (sessions : gmap string Session) (now : Z) :
  (cleanupInactive sessions now).1 =
    filter (fun kv : string * Session => expired now kv.2 = false) sessions.
Proof.
  apply map_eq. intros id. rewrite cleanupInactive_lookup, map_lookup_filter.
  destruct (sessions !! id) as [s|]; [|done]. simpl.
  destruct (expired now s) eqn:Hs.
  - rewrite option_guard_False; [done | simpl; congruence].
  - rewrite option_guard_True; [done | simpl; congruence].
Qed.

Lemma expired_split_disjoint (sessions : gmap string Session) (now : Z) :
  filter (fun kv : string * Session => expired now kv.2 = false) sessions
    ##ₘ filter (fun kv : string * Session => expired now kv.2 = true) sessions.
Proof.
  apply map_disjoint_spec. intros i x y Hx Hy.
  apply map_lookup_filter_Some in Hx as [Hx1 Hx2].
  apply map_lookup_filter_Some in Hy as [Hy1 Hy2]. simpl in *. congruence.
Qed.

(** X6. The sweep keeps exactly the entries that are not expired, each
    unchanged; its counter is the number of expired entries, so the sizes
    before and after differ by it. *)
Theorem cleanupInactive_filter :
  forall (sessions : gmap string Session) (now : Z),
    (cleanupInactive sessions now).1 =
      filter (fun kv : string * Session => expired now kv.2 = false) sessions
    /\ (cleanupInactive sessions now).2 =
         size (filter (fun kv : string * Session => expired now kv.2 = true) sessions)
    /\ (size (cleanupInactive sessions now).1 + (cleanupInactive sessions now).2)%nat
         = size sessions.
Proof.
  intros sessions now.
  pose proof (cleanupInactive_kept sessions now) as Hkept.
  assert (Hcount : (cleanupInactive sessions now).2 =
            size (filter (fun kv : string * Session => expired now kv.2 = true) sessions))
    by apply cleanup_fold_count.
  split; [exact Hkept|]. split; [exact Hcount|].
  rewrite Hkept, Hcount.
  rewrite <- map_size_disj_union by apply expired_split_disjoint.
  f_equal. rewrite map_union_comm by apply expired_split_disjoint.
  rewrite <- (map_filter_union_complement
                (fun kv : string * Session => expired now kv.2 = true) sessions) at 3.
  f_equal. apply map_filter_ext. intros i x _. simpl.
  destruct (expired now x); split; congruence.
Qed.

(** X7. A second sweep at the same instant removes nothing. *)
Theorem cleanupInactive_idempotent :
  forall (sessions : gmap string Session) (now : Z),
    cleanupInactive (cleanupInactive sessions now).1 now
      = ((cleanupInactive sessions now).1, 0%nat).
Proof.
  intros sessions now.
  pose proof (cleanupInactive_kept (cleanupInactive sessions now).1 now) as Hkept.
  pose proof (cleanup_fold_count now (cleanupInactive sessions now).1
                (cleanupInactive sessions now).1) as Hcount.
  fold (cleanupInactive (cleanupInactive sessions now).1 now) in Hcount.
  destruct (cleanupInactive (cleanupInactive sessions now).1 now) as [again removed].
  simpl in *. f_equal.
  - rewrite Hkept. apply map_eq. intros id.
    rewrite map_lookup_filter, cleanupInactive_lookup.
    destruct (sessions !! id) as [s|]; [|done].
    destruct (expired now s) eqn:Hs; [done|]. simpl.
    rewrite option_guard_True; [done | simpl; congruence].
  - rewrite Hcount. apply map_size_empty_iff. apply map_eq. intros id.
    rewrite lookup_empty, map_lookup_filter, cleanupInactive_lookup.
    destruct (sessions !! id) as [s|]; [|done].
    destruct (expired now s) eqn:Hs; [done|]. simpl.
    rewrite option_guard_False; [done | simpl; congruence].
Qed.

(** X8. A message refreshes the conversation: after [addMessage] at time
    [now], a sweep at any time up to one hour later keeps the conversation,
    with the new message at the end. *)
Theorem addMessage_keeps_alive :
  forall (sessions : gmap string Session) (id r c : string) (now later : Z)
         (session : Session),
    id <> "" ->
    sessions !! id = Some session ->
    later - now <= ONE_HOUR ->
    (cleanupInactive (addMessage sessions id r c now) later).1 !! id =
      Some {| messages := messages session
                            ++ [ {| role := r; content := c; timestamp := now |} ];
              lastActivity := Some now;
              metadata := metadata session |}.
Proof.
  intros sessions id r c now later session Hid Hs Hlater.
  rewrite cleanupInactive_lookup, (addMessage_lookup _ _ _ r c now Hid Hs).
  unfold expired. simpl. rewrite bool_decide_eq_false_2; [done | lia].
Qed.

Lemma addMessage_keeps_alive_witness :
  (cleanupInactive (addMessage (Examples.storeAt (Some 0)) "c1" "user" "hello" 4000000)
     7600000).1 !! "c1"
    = Some {| messages := [ {| role := "user"; content := "hello"; timestamp := 4000000 |} ];
              lastActivity := Some 4000000;
              metadata := {| userId := None; startTime := 0 |} |}.
Proof.
  apply (addMessage_keeps_alive (Examples.storeAt (Some 0)) "c1" "user" "hello"
           4000000 7600000 (Examples.sessionAt (Some 0))).
  - discriminate.
  - reflexivity.
  - unfold ONE_HOUR. lia.
Defined.

End StoreOperations.

(** ** The log: computations only append, within a budget of requests *)

Lemma countEvents_app kind (t1 t2 : Trace) :
  countEvents kind (t1 ++ t2) = (countEvents kind t1 + countEvents kind t2)%nat.
Proof. unfold countEvents. by rewrite List.filter_app, length_app. Qed.

Section Budget.
Context {A B : Type}.

Lemma wb_weaken (e q g e' q' g' : nat) (c : M A) :
  (e <= e')%nat -> (q <= q')%nat -> (g <= g')%nat ->
  withinBudget e q g c -> withinBudget e' q' g' c.
Proof.
  intros He Hq Hg Hc t. destruct (Hc t) as (added & Ht & H1 & H2 & H3).
  exists added. repeat split; first [done | lia].
Qed.

Lemma wb_ret (a : A) : withinBudget 0 0 0 (ret a).
Proof. intros t. exists []. simpl. rewrite app_nil_r. repeat split; done. Qed.

Lemma wb_throw (e : Thrown) : withinBudget 0 0 0 (@throw A e).
Proof. intros t. exists []. simpl. rewrite app_nil_r. repeat split; done. Qed.

Lemma wb_bind (e1 q1 g1 e2 q2 g2 : nat) (c : M A) (k : A -> M B) :
  withinBudget e1 q1 g1 c -> (forall a, withinBudget e2 q2 g2 (k a)) ->
  withinBudget (e1 + e2) (q1 + q2) (g1 + g2) (bind c k).
Proof.
  intros Hc Hk t. unfold bind. destruct (Hc t) as (added & Ht & H1 & H2 & H3).
  destruct (c t) as [[a|err] t1]; simpl in Ht; subst t1.
  - destruct (Hk a (t ++ added)) as (more & Ht & H4 & H5 & H6).
    exists (added ++ more). rewrite Ht, app_assoc, !countEvents_app.
    repeat split; first [done | lia].
  - exists added. repeat split; first [done | lia].
Qed.

Lemma wb_try_catch (e1 q1 g1 e2 q2 g2 : nat) (c : M A) (h : Thrown -> M A) :
  withinBudget e1 q1 g1 c -> (forall err, withinBudget e2 q2 g2 (h err)) ->
  withinBudget (e1 + e2) (q1 + q2) (g1 + g2) (try_catch c h).
Proof.
  intros Hc Hh t. unfold try_catch. destruct (Hc t) as (added & Ht & H1 & H2 & H3).
  destruct (c t) as [[a|err] t1]; simpl in Ht; subst t1.
  - exists added. repeat split; first [done | lia].
  - destruct (Hh err (t ++ added)) as (more & Ht & H4 & H5 & H6).
    exists (added ++ more). rewrite Ht, app_assoc, !countEvents_app.
    repeat split; first [done | lia].
Qed.
End Budget.

Lemma wb_console_error label detail : withinBudget 0 0 0 (console_error label detail).
Proof. intros t. eexists. split; [reflexivity|]. repeat split; done. Qed.

Lemma wb_message_or_self err : withinBudget 0 0 0 (message_or_self err).
Proof. destruct err; [apply wb_ret | apply wb_throw | apply wb_ret]. Qed.

(** A handler that reads the message, logs and goes on with [k]. *)
Lemma wb_log_then {A} (e q g : nat) label err (k : M A) :
  withinBudget e q g k ->
  withinBudget e q g (let* detail := message_or_self err in console_error label detail ;; k).
Proof.
  intros Hk. apply (wb_bind 0 0 0 e q g); [apply wb_message_or_self|]. intros detail.
  apply (wb_bind 0 0 0 e q g); [apply wb_console_error|]. by intros _.
Qed.

Lemma wb_embedLoop env texts : forall acc,
  withinBudget (length texts) 0 0 (embedLoop env texts acc).
Proof.
  induction texts as [|tx texts IH]; intros acc; simpl; [apply wb_ret|].
  apply (wb_bind 1 0 0 (length texts) 0 0).
  - intros t. eexists. split; [reflexivity|]. repeat split; done.
  - intros [data|]; [|eapply wb_weaken; [| | |apply wb_throw]; lia].
    destruct (embedding data); [apply IH|].
    eapply wb_weaken; [| | |apply wb_throw]; lia.
Qed.

Lemma wb_generateEmbedding env texts :
  withinBudget (length texts) 0 0 (generateEmbedding env texts).
Proof.
  unfold generateEmbedding.
  eapply wb_weaken; [| | |apply (wb_try_catch (length texts) 0 0 0 0 0)]; [lia..| |].
  - apply wb_embedLoop.
  - intros err. apply wb_log_then, wb_throw.
Qed.

Lemma wb_getIndex env : withinBudget 0 0 0 (getIndex env).
Proof.
  unfold getIndex. destruct (PINECONE_INDEX_NAME env) as [name|]; [|apply wb_throw].
  case_decide; [apply wb_throw|].
  apply (wb_try_catch 0 0 0 0 0 0).
  - intros t. exists []. simpl. rewrite app_nil_r. repeat split; done.
  - intros err. apply (wb_bind 0 0 0 0 0 0); [apply wb_message_or_self|].
    intros detail. apply wb_throw.
Qed.

Lemma wb_retryLoop {A} (fn : M A) attempts remaining :
  withinBudget 0 1 0 fn -> forall lastError,
  withinBudget 0 remaining 0 (retryLoop fn attempts remaining lastError).
Proof.
  intros Hfn. induction remaining as [|remaining IH]; intros lastError; simpl.
  - apply wb_throw.
  - apply (wb_try_catch 0 1 0 0 remaining 0); [done|].
    intros err. apply wb_log_then, IH.
Qed.

Lemma wb_searchSimilar env v k : withinBudget 0 3 0 (searchSimilar env v k).
Proof.
  unfold searchSimilar, withRetry. apply wb_retryLoop.
  apply (wb_bind 0 0 0 0 1 0); [apply wb_getIndex|]. intros _.
  apply (wb_bind 0 1 0 0 0 0); [|intros result; apply wb_ret].
  intros t. eexists. split; [reflexivity|]. repeat split; done.
Qed.

Lemma wb_retrieveContext env q : withinBudget 1 3 0 (retrieveContext env q).
Proof.
  unfold retrieveContext, getRelevantContext.
  apply (wb_try_catch 1 3 0 0 0 0).
  - apply (wb_bind 1 0 0 0 3 0); [apply (wb_generateEmbedding env [q])|].
    intros embeddings.
    apply (wb_bind 0 3 0 0 0 0); [apply wb_searchSimilar | intros found; apply wb_ret].
  - intros err. apply wb_log_then, wb_ret.
Qed.

Lemma wb_generateResponse env p h : withinBudget 0 0 1 (generateResponse env p h).
Proof.
  unfold generateResponse. apply (wb_try_catch 0 0 1 0 0 0).
  - apply (wb_bind 0 0 1 0 0 0).
    + intros t. eexists. split; [reflexivity|]. repeat split; done.
    + intros [data|]; [|apply wb_throw]. case_decide; [apply wb_throw | apply wb_ret].
  - intros err. apply wb_log_then, wb_throw.
Qed.

(** X9. One call of [generateRAGResponse] only appends to the log, and what
    it appends holds at most one embedding request, at most three index
    queries (the retries) and at most one generation request. *)
Theorem generateRAGResponse_budget :
  forall (env : Env) (userQuery : string) (conversationHistory : list Message) (t : Trace),
  exists added : Trace,
    (generateRAGResponse env userQuery conversationHistory t).2 = t ++ added
    /\ (countEvents isEmbeddingsPost added <= 1)%nat
    /\ (countEvents isIndexQuery added <= 3)%nat
    /\ (countEvents isGeneratePost added <= 1)%nat.
Proof.
  intros env q h.
  change (withinBudget 1 3 1 (generateRAGResponse env q h)).
  unfold generateRAGResponse.
  apply (wb_try_catch 1 3 1 0 0 0).
  - apply (wb_bind 1 3 0 0 0 1); [apply wb_retrieveContext|]. intros ctx.
    apply (wb_bind 0 0 1 0 0 0); [apply wb_generateResponse | intros text; apply wb_ret].
  - intros err. apply wb_log_then, wb_ret.
Qed.

(** ** pineconeService.js: the retry wrapper and the ordering of matches *)

Lemma retryLoop_returned {A} (fn : M A) attempts remaining :
  forall lastError t a t',
    retryLoop fn attempts remaining lastError t = (Returned a, t') ->
    exists t0, fn t0 = (Returned a, t').
Proof.
  induction remaining as [|remaining IH]; intros lastError t a t'; simpl.
  - discriminate.
  - unfold try_catch. destruct (fn t) as [[b|err] t1] eqn:Hfn.
    + intros [= <- <-]. eauto.
    + unfold bind. destruct err as [m| |s]; simpl; try discriminate; apply IH.
Qed.

Lemma retryLoop_threw {A} (fn : M A) attempts remaining :
  forall last t e t',
    retryLoop fn attempts remaining (Some last) t = (Threw e, t') ->
    e = last
    \/ (exists t0 t1, fn t0 = (Threw e, t1))
    \/ (e = ErrorObject "Cannot read properties of undefined (reading 'message')"
        /\ exists t0 t1, fn t0 = (Threw Nullish, t1)).
Proof.
  induction remaining as [|remaining IH]; intros last t e t'; simpl.
  - intros [= <- _]. by left.
  - unfold try_catch. destruct (fn t) as [[b|err] t1] eqn:Hfn; [discriminate|].
    unfold bind. destruct err as [m| |s]; simpl.
    + intros H. apply IH in H as [-> | H]; [right; left; eauto | by right].
    + intros [= <- _]. right. right. eauto.
    + intros H. apply IH in H as [-> | H]; [right; left; eauto | by right].
Qed.

(** X10. [withRetry] with at least one attempt: when the first attempt
    returns, that is the result and nothing more is done; any result it
    returns is the result of an attempt, with that attempt's log; and what it
    throws was thrown by an attempt, or is the [TypeError] raised on reading
    [message] of a nullish rejection. *)
Theorem withRetry_faithful :
  forall (A : Type) (fn : M A) (attempts : nat) (t : Trace),
    (0 < attempts)%nat ->
    (forall a t', fn t = (Returned a, t') -> withRetry fn attempts t = (Returned a, t'))
    /\ (forall a t', withRetry fn attempts t = (Returned a, t') ->
          exists t0, fn t0 = (Returned a, t'))
    /\ (forall e t', withRetry fn attempts t = (Threw e, t') ->
          (exists t0 t1, fn t0 = (Threw e, t1))
          \/ (e = ErrorObject "Cannot read properties of undefined (reading 'message')"
              /\ exists t0 t1, fn t0 = (Threw Nullish, t1))).
Proof.
  intros A fn attempts t Hpos. destruct attempts as [|n]; [lia|].
  unfold withRetry. split; [|split].
  - intros a t' Hfn. simpl. unfold try_catch. by rewrite Hfn.
  - intros a t'. apply retryLoop_returned.
  - intros e t'. simpl. unfold try_catch.
    destruct (fn t) as [[b|err] t1] eqn:Hfn; [discriminate|].
    unfold bind. destruct err as [m| |s]; simpl.
    + intros H. apply retryLoop_threw in H as [-> | H]; [left; eauto | done].
    + intros [= <- _]. right. eauto.
    + intros H. apply retryLoop_threw in H as [-> | H]; [left; eauto | done].
Qed.

Lemma withRetry_faithful_witness :
  (0 < 3)%nat
  /\ withRetry MoreExamples.flakyAttempt 3
       [IndexQuery (Some [1 # 2]) 3; IndexQuery (Some [1 # 2]) 3]
     = (Returned (sortByScore (map toMatch MoreExamples.flakyMatches)),
        [IndexQuery (Some [1 # 2]) 3; IndexQuery (Some [1 # 2]) 3;
         IndexQuery (Some [1 # 2]) 3]).
Proof.
  assert (Hpos : (0 < 3)%nat) by lia.
  split; [exact Hpos|].
  destruct (withRetry_faithful (list Match) MoreExamples.flakyAttempt 3
              [IndexQuery (Some [1 # 2]) 3; IndexQuery (Some [1 # 2]) 3] Hpos)
    as (Hfirst & _ & _).
  apply Hfirst. vm_compute. reflexivity.
Defined.

Lemma Qle_bool_false_le a b : Qle_bool a b = false -> (b <= a)%Q.
Proof. intros H. apply Qlt_le_weak. by apply Qle_bool_false. Qed.

Lemma insertByScore_permutation m sorted : insertByScore m sorted ≡ₚ m :: sorted.
Proof.
  induction sorted as [|x rest IH]; simpl; [done|].
  destruct (Qle_bool _ _); [done|]. rewrite IH. apply Permutation_swap.
Qed.

Lemma insertByScore_sorted m sorted :
  StronglySorted scoreDescending sorted ->
  StronglySorted scoreDescending (insertByScore m sorted).
Proof.
  induction 1 as [|x rest Hrest IH Hx]; simpl.
  - repeat constructor.
  - destruct (Qle_bool (score_or_zero (score x)) (score_or_zero (score m))) eqn:Hcmp.
    + apply Qle_bool_iff in Hcmp. constructor; [by constructor|].
      constructor; [exact Hcmp|].
      eapply Forall_impl; [exact Hx|]. intros y Hy. unfold scoreDescending in *.
      eapply Qle_trans; [exact Hy | exact Hcmp].
    + apply Qle_bool_false_le in Hcmp. constructor; [exact IH|].
      rewrite insertByScore_permutation. constructor; [exact Hcmp | exact Hx].
Qed.

(** The sort keeps every match and orders them by descending score. *)
Lemma sortByScore_spec (l : list Match) :
  StronglySorted scoreDescending (sortByScore l) /\ sortByScore l ≡ₚ l.
Proof.
  induction l as [|m l [Hsorted Hperm]]; simpl.
  - split; [constructor | done].
  - split; [by apply insertByScore_sorted|].
    rewrite insertByScore_permutation. by constructor.
Qed.

(** What [searchSimilar] returns is the sorted list of the matches of one
    answer of the index. *)
Lemma searchSimilar_returned env v k t found t' :
  searchSimilar env v k t = (Returned found, t') ->
  exists t0 result,
    index_query env t0 v k = Returned result
    /\ found = sortByScore (map toMatch (default [] (matches result))).
Proof.
  unfold searchSimilar, withRetry. intros H.
  apply retryLoop_returned in H as [t0 H].
  unfold bind at 1 in H. destruct (getIndex env t0) as [[[]|err] t1]; [|discriminate].
  unfold bind, call, ret in H.
  destruct (index_query env t1 v k) as [result|err] eqn:Hq; [|discriminate].
  injection H as <- _. eauto.
Qed.

(** X11. Whatever [searchSimilar] returns is the matches of one answer of
    the index, none lost and none duplicated, each with its id and score and
    with empty metadata where the index gave none, in descending order of
    [score || 0]. *)
Theorem searchSimilar_sorted :
  forall (env : Env) (v : option Embedding) (k : nat) (t : Trace)
         (found : list Match) (t' : Trace),
    searchSimilar env v k t = (Returned found, t') ->
    StronglySorted scoreDescending found
    /\ exists t0 answer,
         index_query env t0 v k = Returned answer
         /\ found ≡ₚ map toMatch (default [] (matches answer)).
Proof.
  intros env v k t found t' Hrun.
  apply searchSimilar_returned in Hrun as (t0 & answer & Hq & ->).
  split; [apply sortByScore_spec|].
  exists t0, answer. split; [exact Hq | apply sortByScore_spec].
Qed.

Lemma searchSimilar_sorted_witness :
  exists found t',
    searchSimilar MoreExamples.envFlaky (Some [1 # 2]) 3 [] = (Returned found, t')
    /\ map id found = ["top"; "low"]
    /\ StronglySorted scoreDescending found.
Proof.
  eexists _, _. split; [vm_compute; reflexivity|]. split; [reflexivity|].
  eapply (searchSimilar_sorted MoreExamples.envFlaky (Some [1 # 2]) 3 []).
  vm_compute. reflexivity.
Defined.

Lemma retrieveContext_documents env q t ctx t1 :
  retrieveContext env q t = (Returned ctx, t1) ->
  documents ctx = []
  \/ exists t0 v result,
       index_query env t0 v 3 = Returned result
       /\ documents ctx = sortByScore (map toMatch (default [] (matches result))).
Proof.
  unfold retrieveContext, try_catch.
  destruct (getRelevantContext env q 3 t) as [[ctx0|err] t0] eqn:Hrun.
  - intros [= <- <-]. right. unfold getRelevantContext, bind at 1 in Hrun.
    destruct (generateEmbedding env [q] t) as [[embeddings|err] t2]; [|discriminate].
    unfold bind, ret in Hrun.
    destruct (searchSimilar env (head embeddings) 3 t2) as [[found|err] t3] eqn:Hs;
      [|discriminate].
    injection Hrun as <- _. simpl.
    apply searchSimilar_returned in Hs as (t4 & result & Hq & ->). eauto.
  - unfold bind. destruct err as [m| |s]; simpl; try discriminate;
      intros [= <- _]; by left.
Qed.

(** X12. The sources of every result of [generateRAGResponse] are in
    descending order of score, and when there are any they are the matches
    of one answer of the index, all of them. *)
Theorem sources_descending :
  forall (env : Env) (userQuery : string) (conversationHistory : list Message)
         (t : Trace) (result : RAGResult) (t' : Trace),
    generateRAGResponse env userQuery conversationHistory t = (Returned result, t') ->
    StronglySorted scoreDescending (sources result)
    /\ (sources result = []
        \/ exists t0 v answer,
             index_query env t0 v 3 = Returned answer
             /\ sources result ≡ₚ map toMatch (default [] (matches answer))).
Proof.
  intros env q h t result t' Hrun.
  destruct (retrieveContext_returns env q t) as (ctx & t1 & Hr).
  rewrite (generateRAGResponse_steps env q h t ctx t1 Hr) in Hrun. simpl in Hrun.
  assert (Hsources : sources result = documents ctx \/ sources result = []).
  { destruct (generateResponse env _ _ t1) as [[text|err] t2] eqn:Hg.
    - injection Hrun as <- _. by left.
    - destruct (generateResponse_throws _ _ _ _ _ _ Hg) as [m ->].
      injection Hrun as <- _. by right. }
  destruct Hsources as [-> | ->]; [|split; [constructor | by left]].
  destruct (retrieveContext_documents env q t ctx t1 Hr)
    as [-> | (t0 & v & answer & Hq & ->)]; [split; [constructor | by left]|].
  split; [apply sortByScore_spec|].
  right. exists t0, v, answer. split; [exact Hq | apply sortByScore_spec].
Qed.

Lemma sources_descending_witness :
  exists result t',
    generateRAGResponse MoreExamples.envFlaky "What is our PTO policy?" [] []
      = (Returned result, t')
    /\ map id (sources result) = ["top"; "low"]
    /\ StronglySorted scoreDescending (sources result).
Proof.
  eexists _, _. split; [vm_compute; reflexivity|]. split; [reflexivity|].
  eapply (sources_descending MoreExamples.envFlaky "What is our PTO policy?" [] []).
  vm_compute. reflexivity.
Defined.

(** ** ollamaService.js *)

Lemma embedLoop_returned env texts : forall acc t embeddings t',
  embedLoop env texts acc t = (Returned embeddings, t') ->
  exists vectors,
    embeddings = acc ++ vectors
    /\ length vectors = length texts
    /\ t' = t ++ map EmbeddingsPost texts
    /\ (forall i tx, texts !! i = Some tx ->
          exists v, vectors !! i = Some v
            /\ http_post_embeddings env (t ++ map EmbeddingsPost (take i texts)) tx
                 = Returned (Some {| embedding := Some v |})).
Proof.
  induction texts as [|tx texts IH]; intros acc t embeddings t'; simpl.
  - intros [= <- <-]. exists []. rewrite !app_nil_r. repeat split. intros i tx' H. done.
  - unfold bind at 1, call.
    destruct (http_post_embeddings env t tx) as [[[[v|]]|]|err] eqn:Hpost;
      simpl; try discriminate.
    intros H. apply IH in H as (vectors & -> & Hlen & -> & Hall).
    exists (v :: vectors). rewrite <- !app_assoc. simpl.
    split; [done|]. split; [by rewrite Hlen|]. split; [done|].
    intros [|i] tx' Hi; simpl in *.
    + injection Hi as <-. exists v. rewrite app_nil_r. done.
    + destruct (Hall i tx' Hi) as (w & Hw & Hp). exists w. split; [done|].
      by rewrite <- app_assoc in Hp.
Qed.

(** X13. When [generateEmbedding] returns, it returns one vector per text,
    in the order of the texts, each the one the service gave for that text,
    and it has posted one request per text, in order; it never returns a
    partial list. *)
Theorem generateEmbedding_one_per_text :
  forall (env : Env) (texts : list string) (t : Trace)
         (embeddings : list Embedding) (t' : Trace),
    generateEmbedding env texts t = (Returned embeddings, t') ->
    length embeddings = length texts
    /\ t' = t ++ map EmbeddingsPost texts
    /\ (forall i tx, texts !! i = Some tx ->
          exists v, embeddings !! i = Some v
            /\ http_post_embeddings env (t ++ map EmbeddingsPost (take i texts)) tx
                 = Returned (Some {| embedding := Some v |})).
Proof.
  intros env texts t embeddings t'. unfold generateEmbedding, try_catch.
  destruct (embedLoop env texts [] t) as [[es|err] t1] eqn:Hloop.
  - intros [= <- <-]. apply embedLoop_returned in Hloop as (vectors & -> & H1 & H2 & H3).
    done.
  - unfold bind. destruct err as [m| |s]; simpl; discriminate.
Qed.

Lemma generateEmbedding_one_per_text_witness :
  generateEmbedding Examples.envBareMatch ["a"; "b"] []
    = (Returned [[1 # 2]; [1 # 2]], [EmbeddingsPost "a"; EmbeddingsPost "b"])
  /\ length [[1 # 2]; [1 # 2]] = length ["a"; "b"].
Proof.
  assert (Hrun : generateEmbedding Examples.envBareMatch ["a"; "b"] []
                 = (Returned [[1 # 2]; [1 # 2]], [EmbeddingsPost "a"; EmbeddingsPost "b"]))
    by reflexivity.
  split; [exact Hrun|].
  destruct (generateEmbedding_one_per_text _ _ _ _ _ Hrun) as (Hlen & _).
  exact Hlen.
Defined.

Lemma field_or_cases (a : option string) (rest : string) :
  (exists s, a = Some s /\ s <> "" /\ field_or a rest = s)
  \/ ((a = None \/ a = Some "") /\ field_or a rest = rest).
Proof.
  destruct a as [s|]; simpl; [|right; eauto].
  unfold str_or. case_decide as Hs; [subst; right; eauto | left; eauto].
Qed.

(** X14. When [generateResponse] returns, the log has grown by exactly the
    one request; the text is not empty and it is the first non-empty one of
    [response], [output] and [message] in the data the model returned. *)
Theorem generateResponse_text :
  forall (env : Env) (prompt : string) (history : list Message) (t : Trace)
         (text : string) (t' : Trace),
    generateResponse env prompt history t = (Returned text, t') ->
    text <> ""
    /\ t' = t ++ [GeneratePost (fullPrompt prompt history)]
    /\ exists data,
         http_post_generate env t (fullPrompt prompt history) = Returned (Some data)
         /\ text = textOf data
         /\ ((exists s, data_response data = Some s /\ s <> "" /\ text = s)
             \/ ((data_response data = None \/ data_response data = Some "")
                 /\ ((exists s, data_output data = Some s /\ s <> "" /\ text = s)
                     \/ ((data_output data = None \/ data_output data = Some "")
                         /\ data_message data = Some text)))).
Proof.
  intros env p h t text t'.
  unfold generateResponse, try_catch, bind, call, throw, ret, console_error.
  destruct (http_post_generate env t (fullPrompt p h)) as [[data|]|err] eqn:Hpost.
  - case_decide as Htext; simpl.
    + discriminate.
    + intros [= <- <-]. split; [exact Htext|]. split; [reflexivity|].
      exists data. split; [reflexivity|]. split; [reflexivity|].
      unfold textOf in *.
      destruct (field_or_cases (data_response data)
                  (field_or (data_output data) (field_or (data_message data) "")))
        as [(s & H1 & H2 & H3) | [H1 H3]]; rewrite H3 in *; [left; eauto|].
      right. split; [exact H1|].
      destruct (field_or_cases (data_output data) (field_or (data_message data) ""))
        as [(s & H4 & H5 & H6) | [H4 H6]]; rewrite H6 in *; [left; eauto|].
      right. split; [exact H4|].
      destruct (field_or_cases (data_message data) "")
        as [(s & H7 & H8 & H9) | [H7 H9]]; rewrite H9 in *; [done|]. done.
  - simpl. discriminate.
  - destruct err as [m| |s]; simpl; try case_decide; simpl; discriminate.
Qed.

Lemma generateResponse_text_witness :
  generateResponse MoreExamples.envFlaky "p" [] []
    = (Returned "20 days.", [GeneratePost (fullPrompt "p" [])])
  /\ "20 days." <> "".
Proof.
  assert (Hrun : generateResponse MoreExamples.envFlaky "p" [] []
                 = (Returned "20 days.", [GeneratePost (fullPrompt "p" [])]))
    by reflexivity.
  split; [exact Hrun|].
  destruct (generateResponse_text _ _ _ _ _ _ Hrun) as (Hne & _).
  exact Hne.
Defined.

(** ** ragService.js: the result *)

Lemma generateRAGResponse_returns env q h t :
  exists result t', generateRAGResponse env q h t = (Returned result, t').
Proof.
  destruct (retrieveContext_returns env q t) as (ctx & t1 & Hr).
  rewrite (generateRAGResponse_steps env q h t ctx t1 Hr). simpl.
  destruct (generateResponse env _ _ t1) as [[text|err] t2] eqn:Hg; [eauto|].
  destruct (generateResponse_throws _ _ _ _ _ _ Hg) as [m ->]. eauto.
Qed.

Lemma generateResponse_returned_nonempty env p h t text t' :
  generateResponse env p h t = (Returned text, t') -> text <> "".
Proof.
  unfold generateResponse, try_catch, bind, call, throw, ret, console_error.
  destruct (http_post_generate env t (fullPrompt p h)) as [[data|]|err].
  - case_decide as Htext; simpl; [discriminate|]. by intros [= <- _].
  - simpl. discriminate.
  - destruct err as [m| |s]; simpl; try case_decide; simpl; discriminate.
Qed.

(** X15. The [response] of a result is never the empty string: it is a
    non-empty generated text or the apology. *)
Theorem response_never_empty :
  forall (env : Env) (userQuery : string) (conversationHistory : list Message)
         (t : Trace) (result : RAGResult) (t' : Trace),
    generateRAGResponse env userQuery conversationHistory t = (Returned result, t') ->
    response result <> ""
    /\ (response result = response fallbackResult
        \/ exists prompt history t1 t2,
             generateResponse env prompt history t1 = (Returned (response result), t2)).
Proof.
  intros env q h t result t' Hrun.
  destruct (retrieveContext_returns env q t) as (ctx & t1 & Hr).
  rewrite (generateRAGResponse_steps env q h t ctx t1 Hr) in Hrun. simpl in Hrun.
  destruct (generateResponse env _ _ t1) as [[text|err] t2] eqn:Hg.
  - injection Hrun as <- _. simpl. split.
    + by apply generateResponse_returned_nonempty in Hg.
    + right. eauto.
  - destruct (generateResponse_throws _ _ _ _ _ _ Hg) as [m ->].
    injection Hrun as <- _. split; [discriminate | by left].
Qed.

Lemma response_never_empty_witness :
  exists result t',
    generateRAGResponse Examples.envRetrievalDown "hi" [] [] = (Returned result, t')
    /\ response result <> "".
Proof.
  eexists _, _. split; [vm_compute; reflexivity|].
  eapply (response_never_empty Examples.envRetrievalDown "hi" [] []).
  vm_compute. reflexivity.
Defined.

(** X16. The path without failure: when the embedding request returns a
    vector, the index is configured and answers at the first attempt, and the
    model returns a text, the result is that text, with the sorted matches as
    sources and their label, after exactly these three requests. *)
Theorem generateRAGResponse_success :
  forall (env : Env) (userQuery : string) (conversationHistory : list Message)
         (t : Trace) (name : string) (v : Embedding) (answer : QueryResponse)
         (data : GenerateData),
    PINECONE_INDEX_NAME env = Some name ->
    name <> "" ->
    pinecone_index env name = Returned tt ->
    http_post_embeddings env t userQuery = Returned (Some {| embedding := Some v |}) ->
    index_query env (t ++ [EmbeddingsPost userQuery]) (Some v) 3 = Returned answer ->
    let found := sortByScore (map toMatch (default [] (matches answer))) in
    let tail := historyTail conversationHistory in
    let prompt := fullPrompt (ragPrompt (renderContext found) tail userQuery) tail in
    let t2 := (t ++ [EmbeddingsPost userQuery]) ++ [IndexQuery (Some v) 3] in
    http_post_generate env t2 prompt = Returned (Some data) ->
    textOf data <> "" ->
    generateRAGResponse env userQuery conversationHistory t =
      (Returned {| response := textOf data; sources := found;
                   confidence := estimateConfidence found |},
       t2 ++ [GeneratePost prompt]).
Proof.
  intros env q h t name v answer data Hname Hne Hindex Hembed Hquery
         found tail prompt t2 Hgen Htext.
  assert (Hctx : retrieveContext env q t =
                 (Returned {| contextText := renderContext found; documents := found |}, t2)).
  { apply retrieveContext_on_success.
    unfold getRelevantContext, generateEmbedding, searchSimilar, withRetry, getIndex.
    simpl. unfold bind, try_catch, call, ret. rewrite Hembed. simpl.
    rewrite Hname. rewrite decide_False by done. rewrite Hindex, Hquery. reflexivity. }
  rewrite (generateRAGResponse_steps env q h t _ _ Hctx). simpl.
  fold tail. rewrite (generateResponse_succeeds env _ tail t2 data Hgen Htext).
  reflexivity.
Qed.

Lemma generateRAGResponse_success_witness :
  (generateRAGResponse Examples.envBareMatch "hi" [] []).1 =
    Returned {| response := "I do not know.";
                sources := [toMatch Examples.bareMatch];
                confidence := low |}.
Proof.
  rewrite (generateRAGResponse_success Examples.envBareMatch "hi" [] [] "kb" [1 # 2]
             {| matches := Some [Examples.bareMatch] |}
             {| data_response := Some "I do not know.";
                data_output := None; data_message := None |});
    try reflexivity; discriminate.
Defined.

(** X17. The label is decided by the best source alone: it is [high]
    exactly when some document has a score of at least 0.7, and [low] exactly
    when every document scores below 0.4 (in particular when there are
    none); [0.7] and [0.4] are the numbers these literals denote in the
    program. *)
Theorem estimateConfidence_by_best_source :
  forall documents : list Match,
    (estimateConfidence documents = high
       <-> exists d, In d documents /\ (literal_0_7 <= score_or_zero (score d))%Q)
    /\ (estimateConfidence documents = low
          <-> forall d, In d documents -> (score_or_zero (score d) < literal_0_4)%Q).
Proof.
  intros documents.
  pose proof (maxScoreOf_isMaxScore documents) as Hmax.
  destruct (estimateConfidence_cases documents) as (Hhigh & Hmedium & Hlow).
  simpl in Hhigh, Hmedium, Hlow.
  set (maxScore := maxScoreOf (map (fun d => score_or_zero (score d)) documents)) in *.
  assert (Hupper : forall d, In d documents -> (score_or_zero (score d) <= maxScore)%Q).
  { intros d Hd. destruct documents as [|d0 rest]; [destruct Hd|].
    destruct Hmax as [Hup _]. rewrite score_or_zero_scoreOf. by apply Hup. }
  assert (Hattained : documents <> [] ->
            exists d, In d documents /\ (score_or_zero (score d) == maxScore)%Q).
  { intros Hne. destruct documents as [|d0 rest]; [done|].
    destruct Hmax as [_ (d & Hd & Heq)]. exists d. split; [done|].
    by rewrite score_or_zero_scoreOf. }
  assert (Hempty : documents = [] -> (maxScore == 0)%Q).
  { intros ->. reflexivity. }
  split; split.
  - intros Hlabel.
    destruct (Qlt_le_dec maxScore literal_0_7) as [Hlt|Hle].
    + exfalso. destruct (Qlt_le_dec maxScore literal_0_4) as [Hlt4|Hle4].
      * rewrite (Hlow Hlt4) in Hlabel. discriminate.
      * rewrite (Hmedium (conj Hle4 Hlt)) in Hlabel. discriminate.
    + destruct documents as [|d0 rest].
      * exfalso. rewrite (Hempty eq_refl) in Hle. revert Hle.
        unfold literal_0_7, Qle. simpl. lia.
      * destruct Hattained as (d & Hd & Heq); [done|]. exists d. split; [done|].
        by rewrite Heq.
  - intros (d & Hd & Hscore). apply Hhigh.
    eapply Qle_trans; [exact Hscore | by apply Hupper].
  - intros Hlabel d Hd.
    destruct (Qlt_le_dec maxScore literal_0_4) as [Hlt4|Hle4].
    + eapply Qle_lt_trans; [by apply Hupper | exact Hlt4].
    + exfalso. destruct (Qlt_le_dec maxScore literal_0_7) as [Hlt|Hle].
      * rewrite (Hmedium (conj Hle4 Hlt)) in Hlabel. discriminate.
      * rewrite (Hhigh Hle) in Hlabel. discriminate.
  - intros Hall. apply Hlow. destruct documents as [|d0 rest].
    + rewrite (Hempty eq_refl). apply literal_0_4_positive.
    + destruct Hattained as (d & Hd & Heq); [done|]. rewrite <- Heq. by apply Hall.
Qed.

(** ** routes/chat.js *)

Section Chat.
Import ChatRoute.

Lemma slice_last_slice_last {A} (n m : nat) (l : list A) :
  (n <= m)%nat -> slice_last n (slice_last m l) = slice_last n l.
Proof.
  intros Hnm. unfold slice_last. rewrite length_drop, drop_drop. f_equal. lia.
Qed.

(** The one generation request of a call, in terms of the retrieved context. *)
Lemma generateRAGResponse_posts env q h t :
  exists ctx t1,
    retrieveContext env q t = (Returned ctx, t1)
    /\ generateRequests (generateRAGResponse env q h t).2 =
         generateRequests t
           ++ [fullPrompt (ragPrompt (contextText ctx) (historyTail h) q) (historyTail h)].
Proof.
  destruct (retrieveContext_returns env q t) as (ctx & t1 & Hr).
  exists ctx, t1. split; [exact Hr|].
  rewrite (generateRAGResponse_steps env q h t ctx t1 Hr). simpl.
  pose proof (generateResponse_posts env (ragPrompt (contextText ctx) (historyTail h) q)
                (historyTail h) t1) as Hp.
  pose proof (quiet_retrieveContext env q t) as Hq. rewrite Hr in Hq. simpl in Hq.
  rewrite Hq in Hp.
  destruct (generateResponse env _ _ t1) as [[text|e] t2] eqn:Hg; [exact Hp|].
  destruct (generateResponse_throws _ _ _ _ _ _ Hg) as [m ->].
  simpl in *. rewrite generateRequests_app, Hp. simpl. by rewrite app_nil_r.
Qed.

(** Past the validation, a conversation id that the store does not hold
    ends the handler at once. *)
Lemma postChat_unknown env rt during (sessions : gmap string SessionManager.Session)
    message id t :
  id <> "" ->
  sessions !! id = None ->
  postChat env rt during sessions message (Some id) t = (NotFound404, sessions, t).
Proof.
  intros Hid Hnone.
  unfold postChat. rewrite decide_False by done.
  unfold SessionManager.getConversation. by rewrite Hnone.
Qed.

(** X18. A request that passes the validation (a message that is not empty
    once trimmed, a conversation id that [validateUuid] accepts) and names a
    conversation the store does not hold is answered 404; a request whose
    conversation id [validateUuid] refuses is answered 400, held or not. In
    both cases the store and the log are left as they were: no message is
    recorded and no external request is made. *)
Theorem chatHandler_unknown_conversation :
  forall (v : Validators) (env : Env) (rt : Runtime)
         (during : gmap string SessionManager.Session -> gmap string SessionManager.Session)
         (sessions : gmap string SessionManager.Session)
         (body : Body) (id : string) (t : Trace),
    body_conversationId body = Some id ->
    (forall message,
       body_message body = Some message -> trim v message <> "" ->
       validateUuid v id = true -> id <> "" -> sessions !! id = None ->
       chatHandler v env rt during sessions body t = (Handled NotFound404, sessions, t))
    /\ (validateUuid v id = false ->
          chatHandler v env rt during sessions body t = (BadRequest400, sessions, t)).
Proof.
  intros v env rt during sessions body id t Hcid. split.
  - intros message Hmessage Htrim Hvalid Hid Hnone.
    unfold chatHandler, validated. rewrite Hmessage, Hcid, Hvalid.
    rewrite decide_False by done.
    by rewrite (postChat_unknown env rt during sessions _ id t Hid Hnone).
  - intros Hinvalid. unfold chatHandler, validated. rewrite Hcid, Hinvalid.
    destruct (body_message body) as [message|]; [|done]. by case_decide.
Qed.

Lemma chatHandler_unknown_conversation_witness :
  chatHandler MoreExamples.validators Examples.envDown MoreExamples.runtime (fun st => st)
    Examples.freshStore
    {| body_message := Some " hello "; body_conversationId := Some MoreExamples.someUuid |} []
    = (Handled NotFound404, Examples.freshStore, [])
  /\ chatHandler MoreExamples.validators Examples.envDown MoreExamples.runtime (fun st => st)
       Examples.freshStore
       {| body_message := Some "hello"; body_conversationId := Some "c9" |} []
     = (BadRequest400, Examples.freshStore, []).
Proof.
  split.
  - destruct (chatHandler_unknown_conversation MoreExamples.validators Examples.envDown
                MoreExamples.runtime (fun st => st) Examples.freshStore
                {| body_message := Some " hello ";
                   body_conversationId := Some MoreExamples.someUuid |}
                MoreExamples.someUuid [] eq_refl) as [Hnotfound _].
    apply (Hnotfound " hello "); [reflexivity | discriminate | reflexivity
                                 | discriminate | reflexivity].
  - destruct (chatHandler_unknown_conversation MoreExamples.validators Examples.envDown
                MoreExamples.runtime (fun st => st) Examples.freshStore
                {| body_message := Some "hello"; body_conversationId := Some "c9" |}
                "c9" [] eq_refl) as [_ Hbad].
    apply Hbad. reflexivity.
Defined.


(** The handler on a conversation that the store holds. *)
Lemma postChat_known env rt during (sessions : gmap string SessionManager.Session)
    message id session t :
  id <> "" ->
  sessions !! id = Some session ->
  exists result t',
    generateRAGResponse env message
      (slice_last 10 (SessionManager.messages session)) t = (Returned result, t')
    /\ postChat env rt during sessions message (Some id) t =
         (Replied {| reply_conversationId := id;
                     reply_response := response result;
                     reply_sources := map toSource (sources result);
                     reply_confidence := confidence result;
                     reply_timestamp := repliedAt rt |},
          SessionManager.addMessage
            (during (SessionManager.addMessage sessions id "user" message (userMessageAt rt)))
            id "assistant" (response result) (assistantMessageAt rt),
          t').
Proof.
  intros Hid Hs.
  destruct (generateRAGResponse_returns env message
              (slice_last 10 (SessionManager.messages session)) t) as (result & t' & Hrun).
  exists result, t'. split; [exact Hrun|].
  unfold postChat. rewrite decide_False by done.
  unfold SessionManager.getConversation. rewrite Hs. simpl. by rewrite Hrun.
Qed.

(** X20. An exchange on a stored conversation, when nothing else touches
    that conversation meanwhile: the reply is the 200 one under the same id,
    and the conversation has grown by exactly two messages, the user's at the
    end but one and the assistant's answer, the text of the reply, at the
    end; its metadata is unchanged. *)
Theorem postChat_records_exchange :
  forall (env : Env) (rt : Runtime)
         (during : gmap string SessionManager.Session -> gmap string SessionManager.Session)
         (sessions : gmap string SessionManager.Session)
         (message id : string) (session : SessionManager.Session) (t : Trace),
    id <> "" ->
    sessions !! id = Some session ->
    (forall st, during st !! id = st !! id) ->
    exists body sessions' t',
      postChat env rt during sessions message (Some id) t = (Replied body, sessions', t')
      /\ reply_conversationId body = id
      /\ sessions' !! id =
           Some {| SessionManager.messages :=
                     SessionManager.messages session
                       ++ [ {| role := "user"; content := message;
                               timestamp := userMessageAt rt |};
                            {| role := "assistant"; content := reply_response body;
                               timestamp := assistantMessageAt rt |} ];
                   SessionManager.lastActivity := Some (assistantMessageAt rt);
                   SessionManager.metadata := SessionManager.metadata session |}.
Proof.
  intros env rt during sessions message id session t Hid Hs Hduring.
  destruct (postChat_known env rt during sessions message id session t Hid Hs)
    as (result & t' & _ & Hpost).
  eexists _, _, _. split; [exact Hpost|]. split; [reflexivity|]. simpl.
  pose proof (addMessage_lookup sessions id session "user" message (userMessageAt rt)
                Hid Hs) as Huser.
  rewrite <- Hduring in Huser.
  rewrite (addMessage_lookup _ _ _ "assistant" (response result) (assistantMessageAt rt)
             Hid Huser).
  simpl. by rewrite <- app_assoc.
Qed.

Lemma postChat_records_exchange_witness :
  exists body sessions' t',
    postChat Examples.envRetrievalDown MoreExamples.runtime (fun st => st)
      Examples.freshStore "hello" (Some "c1") [] = (Replied body, sessions', t')
    /\ SessionManager.messages <$> sessions' !! "c1" =
         Some [ {| role := "user"; content := "hello"; timestamp := 11 |};
                {| role := "assistant"; content := reply_response body; timestamp := 12 |} ].
Proof.
  destruct (postChat_records_exchange Examples.envRetrievalDown MoreExamples.runtime
              (fun st => st) Examples.freshStore "hello" "c1" Examples.freshSession [])
    as (body & sessions' & t' & Hpost & _ & Hstore); [discriminate | reflexivity | done |].
  exists body, sessions', t'. split; [exact Hpost|]. by rewrite Hstore.
Defined.

(** X21. The history the model sees in an exchange is the last five
    messages stored before the request; the message being asked is not among
    them (it appears as the user question only). *)
Theorem postChat_history_window :
  forall (env : Env) (rt : Runtime)
         (during : gmap string SessionManager.Session -> gmap string SessionManager.Session)
         (sessions : gmap string SessionManager.Session)
         (message id : string) (session : SessionManager.Session) (t : Trace),
    id <> "" ->
    sessions !! id = Some session ->
    let before := slice_last 5 (SessionManager.messages session) in
    exists contextText,
      generateRequests (postChat env rt during sessions message (Some id) t).2 =
        generateRequests t ++ [fullPrompt (ragPrompt contextText before message) before].
Proof.
  intros env rt during sessions message id session t Hid Hs before.
  destruct (postChat_known env rt during sessions message id session t Hid Hs)
    as (result & t' & Hrun & ->). simpl.
  destruct (generateRAGResponse_posts env message
              (slice_last 10 (SessionManager.messages session)) t)
    as (ctx & t1 & _ & Hposts).
  rewrite Hrun in Hposts. simpl in Hposts.
  unfold historyTail in Hposts. rewrite slice_last_slice_last in Hposts by lia.
  exists (contextText ctx). exact Hposts.
Qed.

Lemma postChat_history_window_witness :
  exists contextText,
    generateRequests
      (postChat Examples.envRetrievalDown MoreExamples.runtime (fun st => st)
         (SessionManager.addMessages Examples.freshStore "c1" Examples.elevenEntries)
         "hello" (Some "c1") []).2
    = [fullPrompt
         (ragPrompt contextText
            (map SessionManager.pushed (drop 6 Examples.elevenEntries)) "hello")
         (map SessionManager.pushed (drop 6 Examples.elevenEntries))].
Proof.
  destruct (postChat_history_window Examples.envRetrievalDown MoreExamples.runtime
              (fun st => st)
              (SessionManager.addMessages Examples.freshStore "c1" Examples.elevenEntries)
              "hello" "c1"
              {| SessionManager.messages := map SessionManager.pushed Examples.elevenEntries;
                 SessionManager.lastActivity := Some 11;
                 SessionManager.metadata :=
                   {| SessionManager.userId := None; SessionManager.startTime := 0 |} |}
              [])
    as (contextText & Hsent); [discriminate | reflexivity |].
  exists contextText. exact Hsent.
Defined.

(** X22. When the conversation is removed while the answer is being
    generated (deleted by another request, or expired), the client still gets
    the 200 reply with the answer, and the store holds neither message: the
    conversation stays absent. *)
Theorem postChat_reply_dropped :
  forall (env : Env) (rt : Runtime)
         (during : gmap string SessionManager.Session -> gmap string SessionManager.Session)
         (sessions : gmap string SessionManager.Session)
         (message id : string) (session : SessionManager.Session) (t : Trace),
    id <> "" ->
    sessions !! id = Some session ->
    (forall st, during st !! id = None) ->
    exists body sessions' t',
      postChat env rt during sessions message (Some id) t = (Replied body, sessions', t')
      /\ reply_conversationId body = id
      /\ reply_response body <> ""
      /\ sessions' !! id = None.
Proof.
  intros env rt during sessions message id session t Hid Hs Hduring.
  destruct (postChat_known env rt during sessions message id session t Hid Hs)
    as (result & t' & Hrun & Hpost).
  eexists _, _, _. split; [exact Hpost|]. split; [reflexivity|]. split.
  - simpl. destruct (retrieveContext_returns env message t) as (ctx & t1 & Hr).
    rewrite (generateRAGResponse_steps env message _ t ctx t1 Hr) in Hrun. simpl in Hrun.
    destruct (generateResponse env _ _ t1) as [[text|err] t2] eqn:Hg.
    + injection Hrun as <- _. by apply generateResponse_returned_nonempty in Hg.
    + destruct (generateResponse_throws _ _ _ _ _ _ Hg) as [m ->].
      injection Hrun as <- _. discriminate.
  - unfold SessionManager.addMessage. rewrite decide_False by done.
    by rewrite !Hduring.
Qed.

Lemma postChat_reply_dropped_witness :
  exists body sessions' t',
    postChat Examples.envRetrievalDown MoreExamples.runtime (fun st => delete "c1" st)
      Examples.freshStore "hello" (Some "c1") [] = (Replied body, sessions', t')
    /\ sessions' !! "c1" = None.
Proof.
  destruct (postChat_reply_dropped Examples.envRetrievalDown MoreExamples.runtime
              (fun st => delete "c1" st) Examples.freshStore "hello" "c1"
              Examples.freshSession [])
    as (body & sessions' & t' & Hpost & _ & _ & Hstore);
    [discriminate | reflexivity | intros st; apply lookup_delete_eq |].
  exists body, sessions', t'. split; [exact Hpost | exact Hstore].
Defined.




End Chat.

(** ** routes/knowledge.js *)

Section Knowledge.
Import KnowledgeRoute.

Lemma listPage_items {A} (docs : list A) (p limit : nat) :
  (0 < p)%nat -> (0 < limit)%nat ->
  items (listPage docs (Some p) (Some limit)) = take limit (drop ((p - 1) * limit) docs).
Proof.
  intros Hp Hl. destruct p as [|p]; [lia|]. destruct limit as [|limit]; [lia|].
  unfold listPage, slice_range. cbn [items num_or]. f_equal. lia.
Qed.

(** X24. Paging through the documents: every page reports the full count,
    holds at most [limit] items, and the pages 1 to [n] laid end to end are
    the first [n * limit] documents, so no document is skipped or repeated; a
    page past the end is empty. Without parameters the reply is page 1 with a
    limit of 50. *)
Theorem listPage_pagination :
  forall (A : Type) (docs : list A) (limit : nat),
    (0 < limit)%nat ->
    (forall p, total (listPage docs (Some p) (Some limit)) = length docs)
    /\ (forall p, (0 < p)%nat ->
          (length (items (listPage docs (Some p) (Some limit))) <= limit)%nat)
    /\ (forall n,
          concat (map (fun p => items (listPage docs (Some p) (Some limit))) (seq 1 n))
            = take (n * limit) docs)
    /\ (forall p, (0 < p)%nat -> (length docs <= (p - 1) * limit)%nat ->
          items (listPage docs (Some p) (Some limit)) = [])
    /\ listPage docs None None =
         {| page := 1; limit := 50; total := length docs; items := take 50 docs |}.
Proof.
  intros A docs limit Hl. split; [reflexivity|]. split; [|split; [|split]].
  - intros p Hp. rewrite listPage_items by done. rewrite length_take. lia.
  - induction n as [|n IH]; [reflexivity|].
    rewrite seq_S, map_app, concat_app, IH. cbn [map concat]. rewrite app_nil_r.
    rewrite listPage_items by lia.
    replace (1 + n - 1)%nat with n by lia.
    rewrite take_take_drop. f_equal. lia.
  - intros p Hp Hpast. rewrite listPage_items by done.
    rewrite drop_ge by done. apply take_nil.
  - reflexivity.
Qed.

Lemma listPage_pagination_witness :
  (0 < 2)%nat
  /\ items (listPage [1; 2; 3; 4; 5] (Some 1%nat) (Some 2%nat))
       ++ items (listPage [1; 2; 3; 4; 5] (Some 2%nat) (Some 2%nat))
       ++ items (listPage [1; 2; 3; 4; 5] (Some 3%nat) (Some 2%nat))
     = [1; 2; 3; 4; 5].
Proof.
  assert (Hl : (0 < 2)%nat) by lia. split; [exact Hl|].
  destruct (listPage_pagination Z [1; 2; 3; 4; 5] 2%nat Hl) as (_ & _ & Hconcat & _).
  exact (Hconcat 3%nat).
Defined.

(** X25. The search handler, from line 149 on (past its validation),
    never throws. When [generateEmbedding] and then [searchSimilar] return,
    it replies with one result per match that [searchSimilar] returned, in
    the same order (descending by score), each with the id and score of its
    match, and the log is theirs; when either throws, it logs the error and
    replies 500. The limit passed on is the query's, 5 when absent. *)
Theorem searchKnowledge_replies :
  forall (env : Env) (q : string) (queryLimit : option nat) (t : Trace),
    match generateEmbedding env [q] t with
    | (Returned embeddings, t1) =>
        match searchSimilar env (head embeddings) (num_or queryLimit 5) t1 with
        | (Returned found, t2) =>
            searchKnowledge env q queryLimit t = (Returned (Results (map toResult found)), t2)
            /\ map result_id (map toResult found) = map id found
            /\ map result_score (map toResult found) = map score found
            /\ StronglySorted scoreDescending found
        | (Threw error, t2) =>
            searchKnowledge env q queryLimit t =
              (Returned SearchFailed500,
               t2 ++ [ConsoleError "Knowledge search error:" (LogValue error)])
        end
    | (Threw error, t1) =>
        searchKnowledge env q queryLimit t =
          (Returned SearchFailed500,
           t1 ++ [ConsoleError "Knowledge search error:" (LogValue error)])
    end.
Proof.
  intros env q queryLimit t.
  destruct (generateEmbedding env [q] t) as [[embeddings|err] t1] eqn:He.
  - destruct (searchSimilar env (head embeddings) (num_or queryLimit 5) t1)
      as [[found|err] t2] eqn:Hs.
    + split; [|split; [by rewrite map_map | split; [by rewrite map_map|]]].
      * unfold searchKnowledge, try_catch, bind. by rewrite He, Hs.
      * apply searchSimilar_returned in Hs as (t0 & answer & _ & ->).
        apply sortByScore_spec.
    + unfold searchKnowledge, try_catch, bind. by rewrite He, Hs.
  - unfold searchKnowledge, try_catch, bind. by rewrite He.
Qed.

End Knowledge.

(** ** frontend/src/services/api.js *)

Section Api.
Import ApiClient.

Lemma field_or_nonempty (a : option string) (rest : string) :
  rest <> "" -> field_or a rest <> "".
Proof.
  intros Hrest. destruct a as [s|]; simpl; [|done]. by apply str_or_nonempty_result.
Qed.

Lemma field_or_falsy (a : option string) (rest : string) :
  a = None \/ a = Some "" -> field_or a rest = rest.
Proof. intros [-> | ->]; reflexivity. Qed.

Lemma field_or_truthy (s rest : string) : s <> "" -> field_or (Some s) rest = s.
Proof. intros Hs. simpl. by apply str_or_nonempty. Qed.

(** X26. The response interceptor turns every rejection into a failure
    value with a message that is never empty. With a response: the server's
    [error] text when there is a non-empty one, else its non-empty [message],
    else the status line. Without a response: the fixed text when the request
    was sent; else the error's own non-empty message, else the default
    text. *)
Theorem onRejected_message :
  forall (A : Type) (error : AxiosError),
  exists message,
    @onRejected A error = Failure message
    /\ message <> ""
    /\ (forall r s, error_response error = Some r -> body_error r = Some s -> s <> "" ->
          message = s)
    /\ (forall r s, error_response error = Some r ->
          (body_error r = None \/ body_error r = Some "") ->
          body_message r = Some s -> s <> "" ->
          message = s)
    /\ (forall r, error_response error = Some r ->
          (body_error r = None \/ body_error r = Some "") ->
          (body_message r = None \/ body_message r = Some "") ->
          message = "Request failed with status " +:+ pretty (status r))
    /\ (error_response error = None -> has_request error = true ->
          message = "No response from server. Please check your connection or try again later.")
    /\ (forall s, error_response error = None -> has_request error = false ->
          error_message error = Some s -> s <> "" ->
          message = s)
    /\ (error_response error = None -> has_request error = false ->
          (error_message error = None \/ error_message error = Some "") ->
          message = "An unexpected error occurred.").
Proof.
  intros A error. unfold onRejected. eexists. split; [reflexivity|].
  destruct (error_response error) as [r|].
  - split; [apply field_or_nonempty, field_or_nonempty; discriminate|].
    split; [|split; [|split; [|split; [|split]]]]; try discriminate.
    + intros r' s [= <-] Hs Hne. rewrite Hs. by apply field_or_truthy.
    + intros r' s [= <-] He Hs Hne.
      rewrite (field_or_falsy _ _ He), Hs. by apply field_or_truthy.
    + intros r' [= <-] He Hm.
      by rewrite (field_or_falsy _ _ He), (field_or_falsy _ _ Hm).
  - destruct (has_request error).
    + split; [discriminate|].
      split; [|split; [|split; [|split; [|split]]]]; try discriminate. reflexivity.
    + split; [apply field_or_nonempty; discriminate|].
      split; [|split; [|split; [|split; [|split]]]]; try discriminate.
      * intros s _ _ Hs Hne. rewrite Hs. by apply field_or_truthy.
      * intros _ _ He. by rewrite (field_or_falsy _ _ He).
Qed.

End Api.
